(** * photo_renamer: date resolution and collision-safe placement

    A shallow embedding of [photo_renamer.py] and the properties of its
    Date Resolver, Placement Planner, File Copier and Orchestrator.

    - Strings are [string]s of 8-bit characters; [lower], [upper] and
      slicing are the ASCII ones.
    - A [Path] is the list of the components of an absolute, symlink-free
      path, so [Path.resolve] is the identity.  The paths given on the
      command line and found by the directory walk have no [".."]
      component; one that a joined string brings in is kept, as pathlib
      keeps it, and the file tree is looked up at the path as written.
    - Exceptions are explicit: a function returns [Ok v] or [Raise e].
    - The file tree is a finite map from paths to nodes.  The effectful
      functions thread it, together with the trace of the effects they
      perform, through a state-and-exception monad.  The log file is in the
      tree from the moment it is opened; the records later written to it
      carry the time of day and are kept in the trace.
    - The Metadata Reader and the date parser are parameters.
    - The worker pool runs the tasks one after the other, in the order the
      directory walk yields the files, in processes that see the globals of
      the main process. *)

From Stdlib Require Import ZArith Ascii String List Bool Lia.
From stdpp Require Import base option strings list gmap fin_maps pretty.

Import ListNotations.
Local Open Scope string_scope.
Local Open Scope list_scope.

(** ** Exceptions and results *)

Module Py.

(** The exception classes the program can meet.  A subclass that the program
    never names ([json.JSONDecodeError], [dateutil.parser.ParserError], ...)
    is represented by the class it derives from. *)
Inductive exn : Type :=
  | KeyError
  | ValueError
  | OverflowError
  | NameError
  | TypeError
  | IndexError
  | AssertionError
  | FileExistsError
  | FileNotFoundError
  | IsADirectoryError
  | NotADirectoryError
  | SameFileError
  | SystemExit (code : Z).

#[global] Instance exn_eq_dec : EqDecision exn.
Proof. solve_decision. Defined.

Inductive result (A : Type) : Type :=
  | Ok (a : A)
  | Raise (e : exn).

Arguments Ok {A} a.
Arguments Raise {A} e.

#[global] Instance result_ret : MRet result := fun A a => Ok a.
#[global] Instance result_bind : MBind result := fun A B f m =>
  match m with
  | Ok a => f a
  | Raise e => Raise e
  end.

(** ** String primitives *)

Definition is_digit (c : ascii) : bool :=
  let n := nat_of_ascii c in (48 <=? n)%nat && (n <=? 57)%nat.

Definition lower_ascii (c : ascii) : ascii :=
  let n := nat_of_ascii c in
  if (65 <=? n)%nat && (n <=? 90)%nat then ascii_of_nat (n + 32) else c.

Definition upper_ascii (c : ascii) : ascii :=
  let n := nat_of_ascii c in
  if (97 <=? n)%nat && (n <=? 122)%nat then ascii_of_nat (n - 32) else c.

Fixpoint str_map (f : ascii -> ascii) (s : string) : string :=
  match s with
  | EmptyString => EmptyString
  | String c s' => String (f c) (str_map f s')
  end.

Fixpoint str_filter (p : ascii -> bool) (s : string) : string :=
  match s with
  | EmptyString => EmptyString
  | String c s' => if p c then String c (str_filter p s') else str_filter p s'
  end.

(** [s.lower()] and [s.upper()]. *)
Definition lower (s : string) : string := str_map lower_ascii s.
Definition upper (s : string) : string := str_map upper_ascii s.

(** [s.replace(a, b)] for one-character [a] and [b]. *)
Definition replace (a b : ascii) (s : string) : string :=
  str_map (fun c => if Ascii.eqb c a then b else c) s.

(** [s.startswith(p)]. *)
Definition startswith (s p : string) : bool := String.prefix p s.

(** [s.endswith(x)]. *)
Definition endswith (s x : string) : bool :=
  (String.length x <=? String.length s)%nat
  && String.eqb (substring (String.length s - String.length x) (String.length x) s) x.

(** [x in s] for strings. *)
Fixpoint contains (x s : string) : bool :=
  String.prefix x s ||
  match s with
  | EmptyString => false
  | String _ s' => contains x s'
  end.

(** [s[:n]] and [s[n:]] for a non-negative [n]. *)
Definition take (n : nat) (s : string) : string := substring 0 n s.
Definition drop (n : nat) (s : string) : string := substring n (String.length s - n) s.

Fixpoint rfind_from (c : ascii) (s : string) (i : Z) (acc : Z) : Z :=
  match s with
  | EmptyString => acc
  | String a s' => rfind_from c s' (i + 1)%Z (if Ascii.eqb a c then i else acc)
  end.

(** [s.rfind(c)]: the highest index of [c] in [s], or [-1]. *)
Definition rfind (c : ascii) (s : string) : Z := rfind_from c s 0%Z (-1)%Z.

(** [re.sub('[^0-9]', '', s)]. *)
Definition re_sub_non_digits (s : string) : string := str_filter is_digit s.

(** The loop of [genericpath._splitext] that skips leading dots: is there a
    character other than the extension separator among the [n] characters
    from [filenameIndex] on? *)
Fixpoint splitext_scan (p : string) (filenameIndex n : nat) : bool :=
  match n with
  | O => false
  | S n' =>
      if negb (String.eqb (substring filenameIndex 1 p) ".") then true
      else splitext_scan p (S filenameIndex) n'
  end.

(** [os.path.splitext(p)] on POSIX. *)
Definition splitext (p : string) : string * string :=
  let sepIndex := rfind "/" p in
  let dotIndex := rfind "." p in
  if (sepIndex <? dotIndex)%Z
     && splitext_scan p (Z.to_nat (sepIndex + 1)) (Z.to_nat (dotIndex - (sepIndex + 1)))
  then (take (Z.to_nat dotIndex) p, drop (Z.to_nat dotIndex) p)
  else (p, "").

End Py.
Export Py.

(** ** Paths

    A [Path] object is the list of the components of an absolute path; the
    right operand of [/] is the text it is built from ([Path(s)] and [s]
    join alike). *)

Module Pathlib.

Abbreviation Path := (list string).

(** [s.split('/')]. *)
Fixpoint split_slash (s : string) : list string :=
  match s with
  | EmptyString => [""]
  | String c s' =>
      if Ascii.eqb c "/" then "" :: split_slash s'
      else match split_slash s' with
           | [] => [String c ""]
           | h :: t => String c h :: t
           end
  end.

(** The components pathlib keeps when it parses [s]: empty components and
    ["."] are dropped. *)
Definition parts_of (s : string) : list string :=
  filter (fun c => c <> "" /\ c <> ".") (split_slash s).

(** [p / s]: an absolute right operand replaces the left one.  As in
    pathlib a [".."] component of [s] stays in the result; the operating
    system would resolve it against the directories present when the path
    is used, so the file-tree operations below agree with it on the paths
    that have no such component. *)
Definition truediv (p : Path) (s : string) : Path :=
  if startswith s "/" then parts_of s else p ++ parts_of s.

(** [str(p)]. *)
Definition str_path (p : Path) : string := "/" +:+ String.concat "/" p.

(** [p.name] and [p.parent]. *)
Definition name (p : Path) : string := List.last p "".
Definition parent (p : Path) : Path := removelast p.

(** [p.suffix]: the last dot of the name starts the suffix unless it is the
    first or the last character of the name. *)
Definition suffix (p : Path) : string :=
  let n := name p in
  let i := rfind "." n in
  if (0 <? i)%Z && (i <? Z.of_nat (String.length n) - 1)%Z
  then drop (Z.to_nat i) n else "".

End Pathlib.
Export Pathlib.

Infix "//" := truediv (at level 40, left associativity).

(** ** The collaborators

    The Metadata Reader ([pyexifinfo.get_json]) and the date parser
    ([dateutil]'s [parse]) are libraries; the program is verified for every
    behaviour they may show. *)

(** A value of the JSON object the Metadata Reader returns: a string, an
    integer, a boolean or null (numbers with a fraction, arrays and nested
    objects are left out). *)
Inductive json : Type :=
  | JString (s : string)
  | JInt (z : Z)
  | JBool (b : bool)
  | JNull.

(** [str(v)]. *)
Definition str (v : json) : string :=
  match v with
  | JString s => s
  | JInt z => pretty z
  | JBool true => "True"
  | JBool false => "False"
  | JNull => "None"
  end.

Record collaborators : Type := {
  (** [get_json(path)]: the list of metadata objects, or the exception. *)
  get_json : Path -> result (list (gmap string json));
  (** [str(parse(text))] for the library's [parse]: the text of the
      date-time it returns, or the exception. *)
  dateutil_parse : string -> result string
}.

(** ** The module namespace *)

(** The names the module binds at top level: lines 3-14 bind [pprint],
    [concurrent], [sys], [argparse], [log], [glob], [Path], [copy],
    [SameFileError], [parse], [re], [splitext] and [get_json]; the rest are
    the module's functions and the globals of [setup_args] and of the main
    block.  [from dateutil import parse] binds [parse] only. *)
Definition module_globals : list string :=
  [ "pprint"; "concurrent"; "sys"; "argparse"; "log"; "glob"; "Path"; "copy";
    "SameFileError"; "parse"; "re"; "splitext"; "get_json";
    "get_args"; "setup_args"; "setup_log_file"; "parse_filename_to_date";
    "parse_date_from_metadata"; "get_date"; "get_new_name"; "prompt_proceed";
    "create_dir"; "files_equal"; "copy_and_rename_file";
    "out_dir"; "failed_dir"; "prefices"; "suffices"; "exclude"; "args" ].

(** Evaluating a global name: an unbound one raises [NameError]. *)
Definition load_global (n : string) : result unit :=
  if existsb (String.eqb n) module_globals then Ok tt else Raise NameError.

(** ** Date Resolver *)

Section DateResolver.

Variable w : collaborators.

(** Lines 46-51.  The last line evaluates the name [dateutil] before it can
    call anything. *)
Definition parse_filename_to_date (filename : string) : result string :=
  let '(filename, _) := splitext filename in
  let only_numbers := re_sub_non_digits filename in
  if negb (String.length only_numbers =? 14)%nat then Raise ValueError
  else
    _ ← load_global "dateutil";
    dateutil_parse w only_numbers.

(** The loop of lines 57-60. *)
Fixpoint first_present (metadata : gmap string json) (keys : list string)
  : result string :=
  match keys with
  | [] => Raise KeyError
  | key :: keys' =>
      match metadata !! key with
      | Some v => Ok (str v)
      | None => first_present metadata keys'
      end
  end.

(** Lines 54-60. *)
Definition parse_date_from_metadata (path : Path) (keys : list string)
  : result string :=
  l ← get_json w path;
  metadata ← match l with
             | [] => Raise IndexError
             | m :: _ => Ok m
             end;
  first_present metadata keys.

Definition metadata_keys : list string :=
  [ "EXIF:DateTimeOriginal"; "MakerNotes:DateTimeOriginal"; "QuickTime:CreateDate" ].

(** [except (KeyError, ValueError, OverflowError)]. *)
Definition caught (e : exn) : bool :=
  match e with
  | KeyError | ValueError | OverflowError => true
  | _ => false
  end.

(** The loop of lines 75-80: the first function that returns wins, a caught
    exception moves on to the next, any other exception propagates. *)
Fixpoint try_each (parse_funcs : list (unit -> result string))
  : result (option string) :=
  match parse_funcs with
  | [] => Ok None
  | func :: rest =>
      match func tt with
      | Ok date => Ok (Some date)
      | Raise e => if caught e then try_each rest else Raise e
      end
  end.

(** Lines 63-80. *)
Definition get_date (path : Path) : result (option string) :=
  try_each
    [ (fun _ => parse_date_from_metadata path metadata_keys);
      (fun _ => parse_filename_to_date (name path)) ].

(** Lines 83-90; [if date:] also rejects the empty string. *)
Definition get_new_name (path : Path) : result (option string) :=
  date ← get_date path;
  match date with
  | Some date =>
      if String.eqb date "" then Ok None
      else
        let date := replace " " "_" date in
        let date := replace ":" "." date in
        Ok (Some (date +:+ lower (suffix path)))
  | None => Ok None
  end.

End DateResolver.

(** ** The file tree and the effects *)

Module FS.

Inductive node : Type :=
  | File (content : string)
  | Dir.

#[global] Instance node_eq_dec : EqDecision node.
Proof. solve_decision. Defined.

(** What the program does to the outside world, in the order it does it. *)
Inductive event : Type :=
  | EvLogConfig (filename : Path)
  | EvMkdir (p : Path)
  | EvCompare (f1 f2 : Path)
  | EvCopy (src dst : Path)
  | EvRename (src dst : Path)
  | EvLogSkipped (file target : Path)
  | EvLogCopied (file target : Path)
  | EvPrintSelecting (prefices suffices : list string)
  | EvPrintIgnoring (exclude : list string).

Record state : Type := {
  fs : gmap Path node;
  trace : list event
}.

(** A computation reads and updates the state and returns or raises; the
    state reached when it raises is kept. *)
Definition M (A : Type) : Type := state -> result A * state.

#[global] Instance M_ret : MRet M := fun A a s => (Ok a, s).
#[global] Instance M_bind : MBind M := fun A B f m s =>
  match m s with
  | (Ok a, s') => f a s'
  | (Raise e, s') => (Raise e, s')
  end.

Definition lift {A : Type} (r : result A) : M A := fun s => (r, s).

Definition raise {A : Type} (e : exn) : M A := fun s => (Raise e, s).

Definition emit (e : event) : M unit := fun s =>
  (Ok tt, {| fs := fs s; trace := trace s ++ [e] |}).

(** [p.is_dir()] and [p.exists()]. *)
Definition is_dir (p : Path) : M bool := fun s =>
  (Ok match fs s !! p with Some Dir => true | _ => false end, s).

Definition exists_ (p : Path) : M bool := fun s =>
  (Ok match fs s !! p with Some _ => true | None => false end, s).

(** [p.mkdir()]: the path must be free and its parent a directory. *)
Definition mkdir (p : Path) : M unit := fun s =>
  match fs s !! p with
  | Some _ => (Raise FileExistsError, s)
  | None =>
      match fs s !! parent p with
      | Some Dir =>
          (Ok tt, {| fs := <[p := Dir]> (fs s); trace := trace s ++ [EvMkdir p] |})
      | Some (File _) => (Raise NotADirectoryError, s)
      | None => (Raise FileNotFoundError, s)
      end
  end.

(** [open(p, 'rb').read()]. *)
Definition read_bytes (p : Path) : M string := fun s =>
  match fs s !! p with
  | Some (File c) => (Ok c, s)
  | Some Dir => (Raise IsADirectoryError, s)
  | None => (Raise FileNotFoundError, s)
  end.

(** [open(p, 'wb').write(c)]: creates or truncates the file. *)
Definition write_bytes (p : Path) (c : string) : M unit := fun s =>
  match fs s !! p with
  | Some Dir => (Raise IsADirectoryError, s)
  | _ =>
      match fs s !! parent p with
      | Some Dir => (Ok tt, {| fs := <[p := File c]> (fs s); trace := trace s |})
      | Some (File _) => (Raise NotADirectoryError, s)
      | None => (Raise FileNotFoundError, s)
      end
  end.

(** [open(p, 'a')]: creates the file when it is missing and leaves an
    existing file as it is. *)
Definition open_append (p : Path) : M unit := fun s =>
  match fs s !! p with
  | Some (File _) => (Ok tt, s)
  | Some Dir => (Raise IsADirectoryError, s)
  | None =>
      match fs s !! parent p with
      | Some Dir => (Ok tt, {| fs := <[p := File ""]> (fs s); trace := trace s |})
      | Some (File _) => (Raise NotADirectoryError, s)
      | None => (Raise FileNotFoundError, s)
      end
  end.

(** [shutil.copy(src, dst)]: into the directory [dst] under the name of
    [src], or onto the file [dst]; an existing destination is overwritten. *)
Definition copy (src dst : Path) : M Path :=
  d ← is_dir dst;
  let dst := if d : bool then dst // name src else dst in
  e ← exists_ src;
  if bool_decide (src = dst) && e then raise SameFileError
  else
    content ← read_bytes src;
    write_bytes dst content;;
    emit (EvCopy src dst);;
    mret dst.

(** [src.rename(dst)] ([os.rename]): an existing destination file is
    replaced silently.  The entry itself is moved; the program only ever
    renames the regular file it has just copied. *)
Definition rename (src dst : Path) : M unit := fun s =>
  match fs s !! src with
  | None => (Raise FileNotFoundError, s)
  | Some n =>
      if bool_decide (src = dst) then (Ok tt, s)
      else
        match n, fs s !! dst with
        | File _, Some Dir => (Raise IsADirectoryError, s)
        | Dir, Some (File _) => (Raise NotADirectoryError, s)
        | _, _ =>
            match fs s !! parent dst with
            | Some Dir =>
                (Ok tt, {| fs := <[dst := n]> (delete src (fs s));
                           trace := trace s ++ [EvRename src dst] |})
            | Some (File _) => (Raise NotADirectoryError, s)
            | None => (Raise FileNotFoundError, s)
            end
        end
  end.

End FS.
Export FS.

(** ** Placement Planner and File Copier *)

(** The parsed command line ([get_args], lines 16-24). *)
Record args : Type := {
  arg_exclude : option (list string);
  arg_suffix : list string;
  arg_prefix : list string;
  arg_out : Path;
  arg_dir : Path;
  arg_log : option Path
}.

(** The globals [setup_args] assigns (line 32). *)
Record globals : Type := {
  out_dir : Path;
  failed_dir : Path;
  prefices : list string;
  suffices : list string;
  exclude : option (list string)
}.

Section PerFile.

Variable w : collaborators.
Variable a : args.
Variable g : globals.

(** Lines 106-107. *)
Definition files_equal (f1 f2 : Path) : M bool :=
  emit (EvCompare f1 f2);;
  c1 ← read_bytes f1;
  c2 ← read_bytes f2;
  mret (String.eqb c1 c2).

(** Lines 112-119, the filter chain: [true] when the file goes on to the
    per-file pipeline.  Iterating over [args.exclude] when [--exclude] was
    not given iterates over [None]. *)
Definition passes_filters (file : Path) : M bool :=
  d ← is_dir file;
  if d : bool then mret false
  else if negb (existsb (fun prefix => startswith (name file) prefix) (prefices g))
  then mret false
  else if negb (existsb (fun suffix => endswith (name file) suffix) (suffices g))
  then mret false
  else
    excl ← lift (match arg_exclude a with
                 | Some l => Ok l
                 | None => Raise TypeError
                 end);
    if existsb (fun ex => contains ex (str_path (parent file))) excl
    then mret false
    else mret true.

(** Lines 123-126. *)
Definition target_directory_of (new_name : option string) (file : Path) : Path :=
  match new_name with
  | Some n => out_dir g // take 4 n
  | None => failed_dir g // replace "/" "_" (str_path (parent file))
  end.

(** Lines 140-143; [target_directory / None] raises [TypeError] after the
    copy has been made. *)
Definition copy_then_rename (file target_directory : Path)
    (new_name : option string) : M unit :=
  copy file target_directory;;
  let copied_file := target_directory // name file in
  target ← lift (match new_name with
                 | Some n => Ok (target_directory // n)
                 | None => Raise TypeError
                 end);
  rename copied_file target;;
  emit (EvLogCopied file target).

(** Lines 121-143. *)
Definition place (file : Path) : M unit :=
  new_name ← lift (get_new_name w file);
  let target_directory := target_directory_of new_name file in
  d ← is_dir target_directory;
  (if d : bool then mret tt else mkdir target_directory);;
  match new_name with
  | Some n =>
      e ← exists_ (target_directory // n);
      if e : bool then
        same ← files_equal (target_directory // n) file;
        if negb same then
          let '(new_filename, extension) := splitext n in
          copy_then_rename file target_directory
            (Some (new_filename +:+ "_collision" +:+ extension))
        else
          emit (EvLogSkipped file (target_directory // n))
      else copy_then_rename file target_directory new_name
  | None => copy_then_rename file target_directory new_name
  end.

(** Lines 110-143. *)
Definition copy_and_rename_file (file : Path) : M unit :=
  ok ← passes_filters file;
  if ok : bool then place file else mret tt.

End PerFile.

(** ** Orchestrator *)

(** Lines 42-43: [log.basicConfig(filename=...)] opens the log file for
    appending at once, so the file is created when it is missing and the
    call raises when the file cannot be opened. *)
Definition setup_log_file (filename : Path) : M unit :=
  open_append filename;;
  emit (EvLogConfig filename).

(** Lines 98-103. *)
Definition create_dir (directory : Path) : M Path := fun s =>
  match mkdir directory s with
  | (Ok _, s') => (Ok directory, s')
  | (Raise FileExistsError, s') => (Ok directory, s')
  | (Raise e, s') => (Raise e, s')
  end.

(** Lines 27-39. *)
Definition setup_args (a : args) : M globals :=
  if bool_decide (parent (arg_out a) = arg_dir a) then raise AssertionError
  else
    match arg_log a with
    | Some filename => setup_log_file filename
    | None => mret tt
    end;;
    out_dir ← create_dir (arg_out a);
    failed_dir ← create_dir (out_dir // "failed");
    let suffices := flat_map (fun suf => [lower suf; upper suf]) (arg_suffix a) in
    mret {| out_dir := out_dir; failed_dir := failed_dir;
            prefices := arg_prefix a; suffices := suffices;
            exclude := arg_exclude a |}.

(** Lines 93-95, with the line read from standard input as [response]. *)
Definition prompt_proceed (response : string) : M unit :=
  if negb (String.eqb response "y") then raise (SystemExit 0) else mret tt.

(** [executor.map(copy_and_rename_file, files)] under the schedule that runs
    the tasks one after the other in the order of [files]; the results are
    never read, so what a task raises is dropped. *)
Fixpoint executor_map (task : Path -> M unit) (files : list Path) : M unit :=
  match files with
  | [] => mret tt
  | file :: rest => fun s => executor_map task rest (snd (task file s))
  end.

(** Lines 146-156; [files] is what the recursive glob under [args.dir]
    yields. *)
Definition main (w : collaborators) (a : args) (response : string)
    (files : list Path) : M unit :=
  g ← setup_args a;
  emit (EvPrintSelecting (prefices g) (suffices g));;
  match arg_exclude a with
  | Some (ex :: exs) => emit (EvPrintIgnoring (ex :: exs))
  | _ => mret tt
  end;;
  prompt_proceed response;;
  executor_map (copy_and_rename_file w a g) files.

(** The exit status of the process for the way [main] ends. *)
Definition exit_status (r : result unit) : Z :=
  match r with
  | Ok _ => 0
  | Raise (SystemExit code) => code
  | Raise _ => 1
  end.

(** ** The specification's words and the example inputs *)

(** [ResolvedDate] formatting (section 3 of the specification): spaces
    become underscores, colons become periods. *)
Definition sanitized (date : string) : string :=
  replace ":" "." (replace " " "_" date).

(** The filename path as the specification words it: strip the extension,
    keep the digits, require 14 of them, read them as YYYYMMDDHHMMSS and
    format the date-time. *)
Definition spec_filename_date (filename : string) : option string :=
  let digits := re_sub_non_digits (fst (splitext filename)) in
  if (String.length digits =? 14)%nat then
    Some (substring 0 4 digits +:+ "-" +:+ substring 4 2 digits +:+ "-"
          +:+ substring 6 2 digits +:+ " " +:+ substring 8 2 digits +:+ ":"
          +:+ substring 10 2 digits +:+ ":" +:+ substring 12 2 digits)
  else None.

(** A date-time tag as the Metadata Reader prints it: [YYYY:MM:DD HH:MM:SS]. *)
Definition well_formed_timestamp (s : string) : bool :=
  match list_ascii_of_string s with
  | [y1; y2; y3; y4; c1; m1; m2; c2; d1; d2; sp; h1; h2; c3; n1; n2; c4; s1; s2] =>
      forallb is_digit [y1; y2; y3; y4; m1; m2; d1; d2; h1; h2; n1; n2; s1; s2]
      && forallb (Ascii.eqb ":") [c1; c2; c3; c4] && Ascii.eqb sp " "
  | _ => false
  end.

(** Collaborators for a file that carries the metadata object [md]. *)
Definition with_metadata (md : gmap string json) : collaborators :=
  {| get_json := fun _ => Ok [md];
     dateutil_parse := fun _ => Raise ValueError |}.

(** Collaborators for a file without readable metadata, with a date parser
    that does what the specification expects of it. *)
Definition without_metadata : collaborators :=
  {| get_json := fun _ => Raise ValueError;
     dateutil_parse := fun digits =>
       match spec_filename_date digits with
       | Some date => Ok date
       | None => Raise ValueError
       end |}.

(** "A metadata timestamp that is present but malformed is treated as not
    found for that key and the next key or fallback is attempted": the
    resolver answers as if the key were not there. *)
Definition malformed_is_skipped : Prop :=
  forall (md : gmap string json) (key : string) (v : json) (path : Path),
    key ∈ metadata_keys ->
    md !! key = Some v ->
    well_formed_timestamp (str v) = false ->
    get_date (with_metadata md) path = get_date (with_metadata (delete key md)) path.

(** "For every file with a resolved date, the destination directory is
    output-root joined with the first 4 characters of the date string, and
    the destination filename is the date string, sanitized, followed by the
    original extension lowercased." *)
Definition resolved_destination_claim : Prop :=
  forall (w : collaborators) (g : globals) (file : Path) (date : string),
    get_date w file = Ok (Some date) ->
    get_new_name w file = Ok (Some (sanitized date +:+ lower (suffix file)))
    /\ target_directory_of g (Some (sanitized date +:+ lower (suffix file))) file
       = out_dir g // take 4 (sanitized date).

(** A metadata object without the original capture time. *)
Definition maker_and_quicktime : gmap string json :=
  {[ "QuickTime:CreateDate" := JString "2020:01:02 03:04:05";
     "MakerNotes:DateTimeOriginal" := JString "2019:12:31 23:59:59" ]}.

(** A metadata object whose original capture time is not a timestamp. *)
Definition malformed_original : gmap string json :=
  {[ "EXIF:DateTimeOriginal" := JString "not a date";
     "QuickTime:CreateDate" := JString "2020:01:02 03:04:05" ]}.

(** A metadata object whose original capture time is two characters long. *)
Definition short_original : gmap string json :=
  {[ "EXIF:DateTimeOriginal" := JString "20" ]}.

(** The globals after [setup_args] for
    [--out /out --suffix .jpg --exclude thumbnails] and the default prefix. *)
Definition globals_out : globals :=
  {| out_dir := ["out"]; failed_dir := ["out"; "failed"];
     prefices := [""]; suffices := [".jpg"; ".JPG"];
     exclude := Some ["thumbnails"] |}.

(** "Ends with at least one configured suffix matched case-insensitively." *)
Definition endswith_nocase (s x : string) : bool :=
  endswith (lower s) (lower x).

(** "A regular file is processed if and only if its filename starts with at
    least one configured prefix and ends with at least one configured suffix
    matched case-insensitively and no configured exclude substring occurs in
    its resolved parent-directory path", the globals being those that
    [setup_args] derives from the command line. *)
Definition filter_composition_claim : Prop :=
  forall (a : args) (s0 s1 s : state) (g : globals) (file : Path),
    setup_args a s0 = (Ok g, s1) ->
    fs s !! file <> Some Dir ->
    (passes_filters a g file s = (Ok true, s)
     <-> (exists p, p ∈ arg_prefix a /\ startswith (name file) p = true)
         /\ (exists x, x ∈ arg_suffix a /\ endswith_nocase (name file) x = true)
         /\ (forall ex, ex ∈ default [] (arg_exclude a) ->
                        contains ex (str_path (parent file)) = false)).

(** The command line
    [--dir /in --out /out --suffix .jpg --exclude thumbnails]. *)
Definition args_jpg : args :=
  {| arg_exclude := Some ["thumbnails"]; arg_suffix := [".jpg"]; arg_prefix := [""];
     arg_out := ["out"]; arg_dir := ["in"]; arg_log := None |}.

(** A file tree with the input directory only. *)
Definition tree_in : gmap Path node :=
  list_to_map [ ([], Dir); (["in"], Dir); (["in"; "a.Jpg"], File "A") ].



(** ** Well-formed inputs of the per-file pipeline *)

Fixpoint has_char (c : ascii) (s : string) : bool :=
  match s with
  | EmptyString => false
  | String a s' => Ascii.eqb a c || has_char c s'
  end.

(** A name as the directory walk yields it: not empty, not ["."], and free
    of separators. *)
Definition is_component (c : string) : bool :=
  negb (String.eqb c "") && negb (String.eqb c ".") && negb (has_char "/" c).

(** The quarantine subdirectory of a file: the failed root, then the path
    of the parent directory with every separator replaced by ["_"]. *)
Definition quarantine (g : globals) (file : Path) : Path :=
  failed_dir g ++ [replace "/" "_" (str_path (parent file))].



Definition is_copy (e : event) : bool :=
  match e with
  | EvCopy _ _ => true
  | _ => false
  end.



(** An input tree with a photo and an edited version of it that was named
    after its capture time; both carry the capture time 2023-04-15 15:30:00
    in their metadata. *)
Definition tree_two_versions : gmap Path node :=
  list_to_map [ ([], Dir); (["in"], Dir);
                (["in"; "holiday"], Dir); (["in"; "edited"], Dir);
                (["in"; "holiday"; "IMG_0001.jpg"], File "original");
                (["in"; "edited"; "2023.04.15_15.30.00.jpg"], File "edited") ].

Definition capture_2023 : gmap string json :=
  {[ "EXIF:DateTimeOriginal" := JString "2023:04:15 15:30:00" ]}.

(** The regular files below the output root [/out]. *)
Definition output_files (s : state) : list (Path * node) :=
  List.filter (fun '(p, n) =>
                 match p, n with
                 | root :: _, File _ => String.eqb root "out"
                 | _, _ => false
                 end)
              (map_to_list (fs s)).

(** [tree_scan] once [setup_args] has run. *)
Definition tree_scan_ready : gmap Path node :=
  list_to_map [ ([], Dir); (["in"], Dir); (["in"; "scan.jpg"], File "S");
                (["out"], Dir); (["out"; "failed"], Dir) ].

(** [tree_scan] with an older copy of the page in quarantine. *)
Definition tree_scan_quarantined : gmap Path node :=
  list_to_map [ ([], Dir); (["in"], Dir); (["in"; "scan.jpg"], File "S");
                (["out"], Dir); (["out"; "failed"], Dir);
                (["out"; "failed"; "_in"], Dir);
                (["out"; "failed"; "_in"; "scan.jpg"], File "old") ].


(** The name lines 134-135 give to a colliding file. *)
Definition collision_name (n : string) : string :=
  fst (splitext n) +:+ "_collision" +:+ snd (splitext n).

(** The input tree of the specification's scenario: one photo named after
    its capture time, without metadata. *)
Definition tree_scenario : gmap Path node :=
  list_to_map [ ([], Dir); (["in"], Dir);
                (["in"; "IMG_20230415_153000.jpg"], File "photo") ].

(** ** Names whose digits form no date *)

(** The number a string of decimal digits writes. *)
Definition digits_value (s : string) : nat :=
  fold_left (fun acc c => (10 * acc + (nat_of_ascii c - 48))%nat)
            (list_ascii_of_string s) 0%nat.

Definition leap_year (year : nat) : bool :=
  ((year mod 4 =? 0) && negb (year mod 100 =? 0) || (year mod 400 =? 0))%nat.

Definition days_in_month (year month : nat) : nat :=
  match month with
  | 1 | 3 | 5 | 7 | 8 | 10 | 12 => 31
  | 4 | 6 | 9 | 11 => 30
  | 2 => if leap_year year then 29 else 28
  | _ => 0
  end.

(** The 14 digits read as year, month, day, hour, minute and second, in
    that order, name a moment of the calendar. *)
Definition spec_digits_form_date (digits : string) : bool :=
  let year := digits_value (substring 0 4 digits) in
  let month := digits_value (substring 4 2 digits) in
  let day := digits_value (substring 6 2 digits) in
  let hour := digits_value (substring 8 2 digits) in
  let minute := digits_value (substring 10 2 digits) in
  let second := digits_value (substring 12 2 digits) in
  ((1 <=? year) && (1 <=? month) && (month <=? 12)
   && (1 <=? day) && (day <=? days_in_month year month)
   && (hour <? 24) && (minute <? 60) && (second <? 60))%nat.

(** The filename path of the specification resolves the name: the name
    without its extension has exactly 14 digits, and they form a date. *)
Definition spec_name_resolves (filename : string) : bool :=
  let digits := re_sub_non_digits (fst (splitext filename)) in
  (String.length digits =? 14)%nat && spec_digits_form_date digits.

(** An input tree, after [setup_args], with one file whose name has 14
    digits that form no date (month 13, day 99, hour 25). *)
Definition tree_no_date : gmap Path node :=
  list_to_map [ ([], Dir); (["in"], Dir);
                (["in"; "IMG_20231399_256199.jpg"], File "photo");
                (["out"], Dir); (["out"; "failed"], Dir) ].

(** The command line
    [--dir /in --out /out --suffix .jpg --exclude thumbnails --log /run.log]. *)
Definition args_logged : args :=
  {| arg_exclude := Some ["thumbnails"]; arg_suffix := [".jpg"]; arg_prefix := [""];
     arg_out := ["out"]; arg_dir := ["in"]; arg_log := Some ["run.log"] |}.

(** ** Further definitions for the properties of the remaining code *)

(** The command line with only the two required options:
    the defaults of lines 18-23. *)
Definition default_args (dir out : Path) : args :=
  {| arg_exclude := None;
     arg_suffix := [".avi"; ".png"; ".jpg"; ".jpeg"; ".raw"; ".mov"; ".mp4"];
     arg_prefix := [""];
     arg_out := out;
     arg_dir := dir;
     arg_log := None |}.

(** A computation started in a state that satisfies [P] ends, returning or
    raising, in a state that with its result satisfies [Q]. *)
Definition hoare {A : Type} (P : state -> Prop) (m : M A)
    (Q : result A -> state -> Prop) : Prop :=
  forall s : state, P s -> Q (fst (m s)) (snd (m s)).


(** Collaborators whose Metadata Reader returns an empty list. *)
Definition empty_reader : collaborators :=
  {| get_json := fun _ => Ok [];
     dateutil_parse := fun _ => Raise ValueError |}.

(** A metadata object with none of the three date keys. *)
Definition no_date_keys : gmap string json :=
  {[ "File:FileName" := JString "scan.jpg"; "File:FileSize" := JInt 1 ]}.

(** A file tree in which the parent of the output root [/backup/out] is
    missing. *)
Definition args_backup : args :=
  {| arg_exclude := Some ["thumbnails"]; arg_suffix := [".jpg"]; arg_prefix := [""];
     arg_out := ["backup"; "out"]; arg_dir := ["in"]; arg_log := None |}.

(** The command line [--dir /in --out /in/sorted], whose output root lies
    directly in the input root. *)
Definition args_nested : args :=
  {| arg_exclude := None; arg_suffix := [".jpg"]; arg_prefix := [""];
     arg_out := ["in"; "sorted"]; arg_dir := ["in"]; arg_log := None |}.

(** [tree_two_versions] once the edited version has been placed under the
    canonical name of the capture time. *)
Definition tree_edited_placed : gmap Path node :=
  list_to_map [ ([], Dir); (["in"], Dir);
                (["in"; "holiday"], Dir); (["in"; "edited"], Dir);
                (["in"; "holiday"; "IMG_0001.jpg"], File "original");
                (["in"; "edited"; "2023.04.15_15.30.00.jpg"], File "edited");
                (["out"], Dir); (["out"; "failed"], Dir); (["out"; "2023"], Dir);
                (["out"; "2023"; "2023.04.15_15.30.00.jpg"], File "edited") ].




(** A file tree in which a regular file sits where the output root
    [/out] should be. *)
Definition tree_out_is_file : gmap Path node :=
  list_to_map [ ([], Dir); (["in"], Dir); (["in"; "a.Jpg"], File "A");
                (["out"], File "notes") ].

(** * Properties *)

(** ** The primitives on examples *)

Example splitext_photo :
  splitext "IMG_20230415_153000.jpg" = ("IMG_20230415_153000", ".jpg").
Proof. reflexivity. Qed.

Example splitext_leading_dot : splitext ".bashrc" = (".bashrc", "").
Proof. reflexivity. Qed.

Example splitext_last_dot :
  splitext "2023.04.15_15.30.00" = ("2023.04.15_15.30", ".00").
Proof. reflexivity. Qed.

Example digits_of_photo :
  re_sub_non_digits "IMG_20230415_153000" = "20230415153000".
Proof. reflexivity. Qed.

Example suffix_upper : suffix ["in"; "IMG.tar.GZ"] = ".GZ".
Proof. reflexivity. Qed.

Example suffix_trailing_dot : suffix ["in"; "a."] = "".
Proof. reflexivity. Qed.

Example endswith_is_case_sensitive :
  endswith "a.Jpg" ".jpg" = false /\ endswith "a.JPG" (upper ".jpg") = true.
Proof. split; reflexivity. Qed.

Example truediv_relative : ["out"] // "2023" = ["out"; "2023"].
Proof. reflexivity. Qed.

Example truediv_absolute : ["out"] // "/etc" = ["etc"].
Proof. reflexivity. Qed.

Example flattened_parent :
  replace "/" "_" (str_path (parent ["in"; "holiday"; "IMG_0001.jpg"])) = "_in_holiday".
Proof. reflexivity. Qed.

Example name_dateutil_unbound : load_global "dateutil" = Raise NameError.
Proof. reflexivity. Qed.

Example name_parse_bound : load_global "parse" = Ok tt.
Proof. reflexivity. Qed.

(** ** Date Resolver *)

Section DateResolverFacts.

Variable w : collaborators.

Lemma try_each_caught (func : unit -> result string) rest e :
  func tt = Raise e -> caught e = true ->
  try_each (func :: rest) = try_each rest.
Proof. intros Hf Hc. simpl. now rewrite Hf, Hc. Qed.

Lemma try_each_ok (func : unit -> result string) rest date :
  func tt = Ok date -> try_each (func :: rest) = Ok (Some date).
Proof. intros Hf. simpl. now rewrite Hf. Qed.

(** Whatever the metadata strategy returns is the resolved date. *)
Lemma get_date_metadata (path : Path) (date : string) :
  parse_date_from_metadata w path metadata_keys = Ok date ->
  get_date w path = Ok (Some date).
Proof. intros H. unfold get_date. now apply try_each_ok. Qed.

(** After a caught failure of the metadata strategy the filename strategy
    decides. *)
Lemma get_date_fallback (path : Path) (e : exn) :
  parse_date_from_metadata w path metadata_keys = Raise e -> caught e = true ->
  get_date w path =
    match parse_filename_to_date w (name path) with
    | Ok date => Ok (Some date)
    | Raise e' => if caught e' then Ok None else Raise e'
    end.
Proof.
  intros H Hc. unfold get_date.
  rewrite (try_each_caught _ _ e H Hc). simpl.
  destruct (parse_filename_to_date w (name path)) as [d|e']; [reflexivity|].
  now destruct (caught e').
Qed.

(** The filename strategy on a name that yields 14 digits stops at the
    unbound name. *)
Lemma parse_filename_14_digits (filename : string) :
  String.length (re_sub_non_digits (fst (splitext filename))) = 14%nat ->
  parse_filename_to_date w filename = Raise NameError.
Proof.
  intros H. unfold parse_filename_to_date.
  destruct (splitext filename) as [stem ext]. simpl in H. now rewrite H.
Qed.

(** The filename strategy on any other name fails with [ValueError]. *)
Lemma parse_filename_other (filename : string) :
  String.length (re_sub_non_digits (fst (splitext filename))) <> 14%nat ->
  parse_filename_to_date w filename = Raise ValueError.
Proof.
  intros H. unfold parse_filename_to_date.
  destruct (splitext filename) as [stem ext]. simpl in H.
  apply Nat.eqb_neq in H. now rewrite H.
Qed.

(** Every file with 14 digits in its name and no usable metadata makes the
    Date Resolver raise. *)
Lemma get_date_14_digits (path : Path) (e : exn) :
  parse_date_from_metadata w path metadata_keys = Raise e -> caught e = true ->
  String.length (re_sub_non_digits (fst (splitext (name path)))) = 14%nat ->
  get_date w path = Raise NameError.
Proof.
  intros He Hc Hlen. rewrite (get_date_fallback path e He Hc).
  now rewrite (parse_filename_14_digits _ Hlen).
Qed.

(** The first key that is present decides. *)
Lemma first_present_app (md : gmap string json) (earlier later : list string)
    (key : string) (v : json) :
  Forall (fun k => md !! k = None) earlier ->
  md !! key = Some v ->
  first_present md (earlier ++ key :: later) = Ok (str v).
Proof.
  intros Hearlier Hkey.
  induction Hearlier as [|k earlier Hk _ IH]; simpl.
  - now rewrite Hkey.
  - now rewrite Hk.
Qed.

Lemma parse_date_from_metadata_readable (path : Path) md rest keys :
  get_json w path = Ok (md :: rest) ->
  parse_date_from_metadata w path keys = first_present md keys.
Proof. intros H. unfold parse_date_from_metadata. now rewrite H. Qed.

End DateResolverFacts.

(** C1, evaluated on the code.  The file [IMG_20230415_153000.jpg] has 14
    digits in its name and no readable metadata; the specification resolves
    it to 2023-04-15 15:30:00, but whatever the date parser would answer,
    the Date Resolver raises [NameError]: line 51 calls [dateutil.parse]
    while line 11 binds the name [parse] only, and [get_date] does not catch
    that exception. *)
Theorem filename_date_raises_NameError :
  forall parse : string -> result string,
    spec_filename_date "IMG_20230415_153000.jpg" = Some "2023-04-15 15:30:00"
    /\ get_date {| get_json := fun _ => Raise ValueError; dateutil_parse := parse |}
         ["in"; "IMG_20230415_153000.jpg"] = Raise NameError.
Proof.
  intros parse. split; [reflexivity|].
  now apply (get_date_14_digits _ _ ValueError).
Qed.

(** C2.  When the metadata of a file is readable, the Date Resolver returns
    the text of the value of [EXIF:DateTimeOriginal] if that key is present,
    else of [MakerNotes:DateTimeOriginal], else of [QuickTime:CreateDate];
    the name of the file plays no part. *)
Theorem get_date_metadata_priority (w : collaborators) (path : Path)
    (md : gmap string json) (rest : list (gmap string json)) (v : json) :
  get_json w path = Ok (md :: rest) ->
  (md !! "EXIF:DateTimeOriginal" = Some v
   \/ (md !! "EXIF:DateTimeOriginal" = None
       /\ md !! "MakerNotes:DateTimeOriginal" = Some v)
   \/ (md !! "EXIF:DateTimeOriginal" = None
       /\ md !! "MakerNotes:DateTimeOriginal" = None
       /\ md !! "QuickTime:CreateDate" = Some v)) ->
  get_date w path = Ok (Some (str v)).
Proof.
  intros Hjson Hkey. apply get_date_metadata.
  rewrite (parse_date_from_metadata_readable w path md rest _ Hjson).
  unfold metadata_keys. simpl.
  destruct Hkey as [H1 | [[H1 H2] | (H1 & H2 & H3)]].
  - now rewrite H1.
  - now rewrite H1, H2.
  - now rewrite H1, H2, H3.
Qed.

Lemma get_date_metadata_priority_witness :
  get_date (with_metadata maker_and_quicktime) ["in"; "IMG_20230415_153000.jpg"]
  = Ok (Some "2019:12:31 23:59:59").
Proof.
  apply (get_date_metadata_priority (with_metadata maker_and_quicktime)
           ["in"; "IMG_20230415_153000.jpg"] maker_and_quicktime []
           (JString "2019:12:31 23:59:59")).
  - reflexivity.
  - right; left. split; reflexivity.
Defined.

(** C6 as stated fails: a malformed original capture time is not skipped.
    With ["not a date"] under [EXIF:DateTimeOriginal] and a well-formed
    [QuickTime:CreateDate], the resolver returns ["not a date"]. *)
Lemma malformed_is_not_skipped : ~ malformed_is_skipped.
Proof.
  intros H.
  specialize (H malformed_original "EXIF:DateTimeOriginal" (JString "not a date")
                ["in"; "a.jpg"]).
  assert (Hin : "EXIF:DateTimeOriginal" ∈ metadata_keys) by (unfold metadata_keys; set_solver).
  specialize (H Hin eq_refl eq_refl).
  vm_compute in H. discriminate H.
Qed.

(** C6, amended.  The Date Resolver does not validate metadata: the value of
    the first present key is returned as it is, malformed or not.  When the
    metadata strategy fails with [KeyError], [ValueError] or [OverflowError]
    and the name of the file does not yield exactly 14 digits, the resolver
    returns [None] and raises nothing. *)
Theorem resolution_failure_not_fatal (w : collaborators) (path : Path) :
  (forall (md : gmap string json) (rest : list (gmap string json))
          (earlier later : list string) (key : string) (v : json),
     get_json w path = Ok (md :: rest) ->
     metadata_keys = earlier ++ key :: later ->
     Forall (fun k => md !! k = None) earlier ->
     md !! key = Some v ->
     get_date w path = Ok (Some (str v)))
  /\ (forall e : exn,
        parse_date_from_metadata w path metadata_keys = Raise e ->
        caught e = true ->
        String.length (re_sub_non_digits (fst (splitext (name path)))) <> 14%nat ->
        get_date w path = Ok None).
Proof.
  split.
  - intros md rest earlier later key v Hjson Hkeys Hearlier Hkey.
    apply get_date_metadata.
    rewrite (parse_date_from_metadata_readable w path md rest _ Hjson), Hkeys.
    now apply first_present_app.
  - intros e He Hc Hlen.
    rewrite (get_date_fallback w path e He Hc).
    now rewrite (parse_filename_other w _ Hlen).
Qed.

Lemma resolution_failure_not_fatal_witness :
  get_date (with_metadata malformed_original) ["in"; "a.jpg"] = Ok (Some "not a date")
  /\ get_date without_metadata ["in"; "holiday_2023.jpg"] = Ok None.
Proof.
  split.
  - apply (proj1 (resolution_failure_not_fatal (with_metadata malformed_original)
                    ["in"; "a.jpg"])
             malformed_original [] []
             ["MakerNotes:DateTimeOriginal"; "QuickTime:CreateDate"]
             "EXIF:DateTimeOriginal" (JString "not a date")).
    + reflexivity.
    + reflexivity.
    + constructor.
    + reflexivity.
  - apply (proj2 (resolution_failure_not_fatal without_metadata
                    ["in"; "holiday_2023.jpg"]) ValueError).
    + reflexivity.
    + reflexivity.
    + vm_compute. lia.
Defined.

(** ** Planned destination *)

Lemma str_map_length (f : ascii -> ascii) (s : string) :
  String.length (str_map f s) = String.length s.
Proof. induction s as [|c s IH]; simpl; [reflexivity | now rewrite IH]. Qed.

Lemma sanitized_length (date : string) :
  String.length (sanitized date) = String.length date.
Proof. unfold sanitized, replace. now rewrite !str_map_length. Qed.

Lemma take_app (n : nat) (s t : string) :
  (n <= String.length s)%nat -> take n (s +:+ t) = take n s.
Proof.
  unfold take. revert n.
  induction s as [|c s IH]; intros [|n] Hn; simpl in *; try reflexivity; try lia.
  - now destruct t.
  - rewrite IH by lia. reflexivity.
Qed.

(** C7 as stated fails on a date string shorter than four characters: for
    the date ["20"] and the file [a.JPG] the directory is named by the
    first four characters of the new name, ["20.j"]. *)
Lemma short_date_directory : ~ resolved_destination_claim.
Proof.
  intros H.
  destruct (H (with_metadata short_original) globals_out ["in"; "a.JPG"] "20" eq_refl)
    as [_ Hdir].
  vm_compute in Hdir. discriminate Hdir.
Qed.

(** C7, amended.  For every file with a resolved date string of at least
    four characters, the destination filename is the date string with spaces
    replaced by underscores and colons by periods, followed by the
    lowercased extension, and the destination directory is the output root
    joined with the first four characters of that date string. *)
Theorem resolved_destination (w : collaborators) (g : globals) (file : Path)
    (date : string) :
  get_date w file = Ok (Some date) ->
  (4 <= String.length date)%nat ->
  get_new_name w file = Ok (Some (sanitized date +:+ lower (suffix file)))
  /\ target_directory_of g (Some (sanitized date +:+ lower (suffix file))) file
     = out_dir g // take 4 (sanitized date).
Proof.
  intros Hdate Hlen. split.
  - unfold get_new_name. rewrite Hdate. simpl.
    destruct (String.eqb_spec date "") as [->|_]; [simpl in Hlen; lia | reflexivity].
  - cbn [target_directory_of]. f_equal.
    apply take_app. now rewrite sanitized_length.
Qed.

Lemma resolved_destination_witness :
  get_new_name (with_metadata maker_and_quicktime) ["in"; "IMG_0001.JPG"]
  = Ok (Some "2019.12.31_23.59.59.jpg")
  /\ target_directory_of globals_out (Some "2019.12.31_23.59.59.jpg") ["in"; "IMG_0001.JPG"]
     = ["out"; "2019"].
Proof.
  apply (resolved_destination (with_metadata maker_and_quicktime) globals_out
           ["in"; "IMG_0001.JPG"] "2019:12:31 23:59:59").
  - reflexivity.
  - simpl. lia.
Defined.

(** The scenario of the specification, run through the whole program: the
    task of [IMG_20230415_153000.jpg] ends on the [NameError] of line 51 and
    nothing is placed in the output tree. *)
Example scenario_not_placed :
  output_files
    (snd (main without_metadata args_jpg "y" [["in"; "IMG_20230415_153000.jpg"]]
            {| fs := tree_scenario; trace := [] |})) = []
  /\ fst (copy_and_rename_file without_metadata args_jpg globals_out
            ["in"; "IMG_20230415_153000.jpg"]
            {| fs := tree_scenario; trace := [] |}) = Raise NameError.
Proof. split; vm_compute; reflexivity. Qed.

(** ** Effects: stepping through a computation *)

Lemma bind_ok {A B : Type} (m : M A) (f : A -> M B) (s s' : state) (x : A) :
  m s = (Ok x, s') -> (m ≫= f) s = f x s'.
Proof. intros H. unfold mbind, M_bind. now rewrite H. Qed.

Lemma bind_raise {A B : Type} (m : M A) (f : A -> M B) (s s' : state) (e : exn) :
  m s = (Raise e, s') -> (m ≫= f) s = (Raise e, s').
Proof. intros H. unfold mbind, M_bind. now rewrite H. Qed.

Lemma is_dir_spec (p : Path) (s : state) :
  is_dir p s = (Ok (bool_decide (fs s !! p = Some Dir)), s).
Proof.
  unfold is_dir. destruct (fs s !! p) as [[c|]|] eqn:E; simpl;
    repeat case_bool_decide; congruence.
Qed.

(** ** Filters *)

Lemma existsb_flat_map {A B : Type} (f : B -> bool) (h : A -> list B) (l : list A) :
  existsb f (flat_map h l) = existsb (fun x => existsb f (h x)) l.
Proof.
  induction l as [|x l IH]; simpl; [reflexivity|].
  now rewrite existsb_app, IH.
Qed.

Lemma existsb_pointwise {A : Type} (f h : A -> bool) (l : list A) :
  (forall x, f x = h x) -> existsb f l = existsb h l.
Proof.
  intros Hfh. induction l as [|x l IH]; simpl; [reflexivity|].
  now rewrite Hfh, IH.
Qed.

(** What [setup_args] leaves in the globals. *)
Lemma setup_args_globals (a : args) (s0 s1 : state) (g : globals) :
  setup_args a s0 = (Ok g, s1) ->
  g = {| out_dir := arg_out a; failed_dir := arg_out a // "failed";
         prefices := arg_prefix a;
         suffices := flat_map (fun suf => [lower suf; upper suf]) (arg_suffix a);
         exclude := arg_exclude a |}.
Proof.
  unfold setup_args. case_bool_decide; [discriminate|].
  unfold mbind, M_bind, mret, M_ret, create_dir.
  destruct (match arg_log a with Some f => setup_log_file f | None => _ end s0)
    as [[[]|e] sa]; [|discriminate].
  destruct (mkdir (arg_out a) sa) as [[[]|e] sb].
  - destruct (mkdir (arg_out a // "failed") sb) as [[[]|e] sc].
    + now intros [= <- _].
    + destruct e; try discriminate. now intros [= <- _].
  - destruct e; try discriminate.
    destruct (mkdir (arg_out a // "failed") sb) as [[[]|e] sc].
    + now intros [= <- _].
    + destruct e; try discriminate. now intros [= <- _].
Qed.

(** C8 as stated fails: [a.Jpg] ends with the configured suffix [.jpg] when
    case is ignored, starts with the empty prefix and lies in no excluded
    directory, yet it is filtered out. *)
Lemma mixed_case_suffix_rejected : ~ filter_composition_claim.
Proof.
  intros H.
  pose (s0 := {| fs := tree_in; trace := [] |}).
  specialize (H args_jpg s0 (snd (setup_args args_jpg s0)) s0 globals_out
                ["in"; "a.Jpg"]).
  destruct H as [_ H]; [vm_compute; reflexivity | vm_compute; discriminate |].
  assert (Hpass : passes_filters args_jpg globals_out ["in"; "a.Jpg"] s0 = (Ok true, s0)).
  { apply H. split; [|split].
    - exists "". split; [set_solver | reflexivity].
    - exists ".jpg". split; [set_solver | reflexivity].
    - intros ex Hex. apply list_elem_of_singleton in Hex. now subst ex. }
  vm_compute in Hpass. discriminate Hpass.
Qed.

(** C8, amended.  With [--exclude] given, a regular file is processed if and
    only if its name starts with a configured prefix, ends with the
    all-lowercase or the all-uppercase form of a configured suffix, and no
    exclude string occurs in the path of its parent directory; otherwise
    nothing at all is done for it. *)
Theorem filter_composition (w : collaborators) (a : args) (s0 s1 s : state)
    (g : globals) (file : Path) (excl : list string) :
  setup_args a s0 = (Ok g, s1) ->
  arg_exclude a = Some excl ->
  fs s !! file <> Some Dir ->
  exists processed : bool,
    passes_filters a g file s = (Ok processed, s)
    /\ (processed = true
        <-> (exists p, p ∈ arg_prefix a /\ startswith (name file) p = true)
            /\ (exists x, x ∈ arg_suffix a
                          /\ (endswith (name file) (lower x) = true
                              \/ endswith (name file) (upper x) = true))
            /\ (forall ex, ex ∈ excl -> contains ex (str_path (parent file)) = false))
    /\ (processed = false -> copy_and_rename_file w a g file s = (Ok tt, s)).
Proof.
  intros Hsetup Hexcl Hfile.
  apply setup_args_globals in Hsetup. subst g.
  exists (existsb (fun prefix => startswith (name file) prefix) (arg_prefix a)
          && existsb (fun x => endswith (name file) (lower x)
                               || endswith (name file) (upper x)) (arg_suffix a)
          && negb (existsb (fun ex => contains ex (str_path (parent file))) excl)).
  assert (Hpass : forall g, prefices g = arg_prefix a ->
            suffices g = flat_map (fun suf => [lower suf; upper suf]) (arg_suffix a) ->
            passes_filters a g file s =
            (Ok (existsb (fun prefix => startswith (name file) prefix) (arg_prefix a)
                 && existsb (fun x => endswith (name file) (lower x)
                                      || endswith (name file) (upper x)) (arg_suffix a)
                 && negb (existsb (fun ex => contains ex (str_path (parent file))) excl)),
             s)).
  { intros g Hp Hs. unfold passes_filters.
    rewrite (bind_ok _ _ _ _ _ (is_dir_spec file s)).
    rewrite bool_decide_eq_false_2 by exact Hfile.
    rewrite Hp, Hs, Hexcl, existsb_flat_map.
    assert (Hsuf : existsb (fun x => existsb (fun suffix => endswith (name file) suffix)
                                      [lower x; upper x]) (arg_suffix a)
                   = existsb (fun x => endswith (name file) (lower x)
                                       || endswith (name file) (upper x)) (arg_suffix a)).
    { apply existsb_pointwise. intros x. simpl. now rewrite orb_false_r. }
    rewrite Hsuf.
    set (bp := existsb _ (arg_prefix a)).
    set (bs := existsb _ (arg_suffix a)).
    destruct bp; cbn [negb andb]; [|reflexivity].
    destruct bs; cbn [negb andb]; [|reflexivity].
    unfold mbind, M_bind, lift. cbn beta iota.
    now destruct (existsb _ excl). }
  split; [|split].
  - now apply Hpass.
  - rewrite !andb_true_iff, negb_true_iff. split.
    + intros [[Hp Hs] He]. split; [|split].
      * apply existsb_exists in Hp as (p & Hin & Hp).
        exists p. split; [now apply list_elem_of_In | exact Hp].
      * apply existsb_exists in Hs as (x & Hin & Hx).
        exists x. split; [now apply list_elem_of_In | now apply orb_true_iff].
      * intros ex Hex. apply list_elem_of_In in Hex.
        destruct (contains ex (str_path (parent file))) eqn:Hc; [|reflexivity].
        assert (existsb (fun ex => contains ex (str_path (parent file))) excl = true)
          by (apply existsb_exists; eauto).
        congruence.
    + intros ((p & Hin & Hp) & (x & Hxin & Hx) & He). split; [split|].
      * apply existsb_exists. exists p. split; [now apply list_elem_of_In | exact Hp].
      * apply existsb_exists. exists x.
        split; [now apply list_elem_of_In | now apply orb_true_iff].
      * destruct (existsb _ excl) eqn:Hex; [|reflexivity].
        apply existsb_exists in Hex as (ex & Hexin & Hc).
        apply list_elem_of_In in Hexin. rewrite (He ex Hexin) in Hc. discriminate.
  - intros Hfalse. unfold copy_and_rename_file.
    erewrite bind_ok by (now apply Hpass). now rewrite Hfalse.
Qed.

Lemma filter_composition_witness :
  passes_filters args_jpg globals_out ["in"; "a.JPG"] {| fs := tree_in; trace := [] |}
  = (Ok true, {| fs := tree_in; trace := [] |}).
Proof.
  destruct (filter_composition without_metadata args_jpg
              {| fs := tree_in; trace := [] |}
              (snd (setup_args args_jpg {| fs := tree_in; trace := [] |}))
              {| fs := tree_in; trace := [] |} globals_out ["in"; "a.JPG"]
              ["thumbnails"])
    as (processed & Hrun & Hiff & _).
  - vm_compute. reflexivity.
  - reflexivity.
  - vm_compute. discriminate.
  - rewrite Hrun. f_equal. f_equal. apply Hiff. split; [|split].
    + exists "". split; [constructor | reflexivity].
    + exists ".jpg". split; [constructor | right; reflexivity].
    + intros ex Hex. apply list_elem_of_singleton in Hex. now subst ex.
Defined.

(** ** Pre-flight confirmation *)

Lemma create_dir_spec (d d' : Path) (s s' : state) :
  create_dir d s = (Ok d', s') ->
  d' = d
  /\ (s' = s
      \/ (fs s !! d = None
          /\ s' = {| fs := <[d := Dir]> (fs s); trace := trace s ++ [EvMkdir d] |})).
Proof.
  unfold create_dir, mkdir.
  destruct (fs s !! d) as [n|] eqn:Hd.
  - intros [= <- <-]. auto.
  - destruct (fs s !! parent d) as [[c|]|]; try discriminate.
    intros [= <- <-]. auto.
Qed.







(** With [--log] the log file, too, is there after the user has declined. *)
Example abort_leaves_log_file :
  fs (snd (main without_metadata args_logged "n" [["in"; "a.Jpg"]]
             {| fs := tree_in; trace := [] |})) !! ["run.log"] = Some (File "")
  /\ tree_in !! ["run.log"] = None.
Proof. split; vm_compute; reflexivity. Qed.

(** ** Path components *)

Lemma split_slash_component (c : string) :
  has_char "/" c = false -> split_slash c = [c].
Proof.
  induction c as [|x c IH]; simpl; [reflexivity|].
  intros H. apply orb_false_iff in H as [Hx Hc].
  rewrite Hx, (IH Hc). reflexivity.
Qed.

Lemma truediv_component (p : Path) (c : string) :
  is_component c = true -> p // c = p ++ [c].
Proof.
  unfold is_component. rewrite !andb_true_iff, !negb_true_iff.
  intros [[He Hd] Hs].
  apply String.eqb_neq in He, Hd.
  unfold truediv, startswith, parts_of.
  rewrite (split_slash_component c Hs).
  assert (Hstart : String.prefix "/" c = false).
  { destruct c as [|x c]; [reflexivity|]. cbn [String.prefix].
    destruct (ascii_dec "/" x) as [<-|_]; [|reflexivity].
    cbn [has_char] in Hs. now rewrite Ascii.eqb_refl in Hs. }
  rewrite Hstart, filter_cons_True by (split; assumption).
  reflexivity.
Qed.

Lemma replace_slash_free (s : string) :
  has_char "/" (replace "/" "_" s) = false.
Proof.
  unfold replace. induction s as [|x s IH]; simpl; [reflexivity|].
  rewrite IH, orb_false_r.
  destruct (Ascii.eqb_spec x "/") as [->|Hx]; [reflexivity|].
  now apply Ascii.eqb_neq.
Qed.

(** The flattened parent path is one component, so the quarantine
    subdirectory lies directly below the failed root. *)
Lemma target_directory_unresolved (g : globals) (file : Path) :
  target_directory_of g None file = quarantine g file.
Proof.
  unfold target_directory_of, quarantine. apply truediv_component.
  unfold is_component. rewrite replace_slash_free.
  unfold str_path. simpl. reflexivity.
Qed.

(** ** File operations *)

Lemma mkdir_ok (p : Path) (s : state) :
  fs s !! p = None -> fs s !! parent p = Some Dir ->
  mkdir p s = (Ok tt, {| fs := <[p := Dir]> (fs s); trace := trace s ++ [EvMkdir p] |}).
Proof. intros Hp Hpar. unfold mkdir. now rewrite Hp, Hpar. Qed.

Lemma parent_child (d : Path) (c : string) : parent (d ++ [c]) = d.
Proof. unfold parent. apply removelast_last. Qed.

Lemma child_neq (d : Path) (c : string) : d ++ [c] <> d.
Proof.
  intros H. apply (f_equal (@List.length string)) in H.
  rewrite length_app in H. simpl in H. lia.
Qed.

(** Copying a regular file into a directory writes its content under its
    own name there, over whatever regular file had that name. *)
Lemma copy_into_dir (src dir : Path) (s : state) (c : string) :
  is_component (name src) = true ->
  fs s !! dir = Some Dir ->
  fs s !! src = Some (File c) ->
  src <> dir ++ [name src] ->
  fs s !! (dir ++ [name src]) <> Some Dir ->
  copy src dir s
  = (Ok (dir ++ [name src]),
     {| fs := <[(dir ++ [name src]) := File c]> (fs s);
        trace := trace s ++ [EvCopy src (dir ++ [name src])] |}).
Proof.
  intros Hname Hdir Hsrc Hne Hdst. unfold copy.
  rewrite (bind_ok _ _ _ _ _ (is_dir_spec dir s)).
  rewrite (bool_decide_eq_true_2 (fs s !! dir = Some Dir)) by exact Hdir.
  rewrite (truediv_component dir _ Hname).
  unfold mbind, M_bind, exists_, raise, read_bytes, write_bytes, emit, mret, M_ret.
  rewrite Hsrc, (bool_decide_eq_false_2 (src = dir ++ [name src])) by exact Hne.
  cbn [andb]. rewrite Hsrc. cbn beta iota.
  rewrite parent_child, Hdir.
  destruct (fs s !! (dir ++ [name src])) as [[c'|]|]; try reflexivity.
  contradiction.
Qed.

(** Renaming a regular file onto a free name or onto a regular file. *)
Lemma rename_file (src dst : Path) (s : state) (c : string) :
  fs s !! src = Some (File c) ->
  src <> dst ->
  fs s !! dst <> Some Dir ->
  fs s !! parent dst = Some Dir ->
  rename src dst s
  = (Ok tt, {| fs := <[dst := File c]> (delete src (fs s));
               trace := trace s ++ [EvRename src dst] |}).
Proof.
  intros Hsrc Hne Hdst Hpar. unfold rename.
  rewrite Hsrc, bool_decide_eq_false_2, Hpar by exact Hne.
  destruct (fs s !! dst) as [[c'|]|]; try reflexivity. contradiction.
Qed.

Lemma get_new_name_unresolved (w : collaborators) (file : Path) :
  get_date w file = Ok None -> get_new_name w file = Ok None.
Proof. intros H. unfold get_new_name. now rewrite H. Qed.

(** ** Quarantine *)

Lemma string_length_app (s t : string) :
  String.length (s +:+ t) = (String.length s + String.length t)%nat.
Proof. induction s as [|x s IH]; simpl; [reflexivity | now rewrite IH]. Qed.

Lemma concat_last_length (l : list string) :
  (String.length (List.last l "") <= String.length (String.concat "/" l))%nat.
Proof.
  induction l as [|x [|y l] IH]; [simpl; lia | simpl; lia |].
  change (List.last (x :: y :: l) "") with (List.last (y :: l) "").
  change (String.concat "/" (x :: y :: l))
    with (x +:+ "/" +:+ String.concat "/" (y :: l)).
  rewrite !string_length_app. lia.
Qed.

(** A file never is its own quarantine copy: the name of the quarantine
    subdirectory is longer than any component of the parent path. *)
Lemma quarantine_not_source (g : globals) (file : Path) :
  file <> quarantine g file ++ [name file].
Proof.
  intros H. apply (f_equal parent) in H. rewrite parent_child in H.
  unfold quarantine in H.
  assert (Hlast : List.last (parent file) "" = replace "/" "_" (str_path (parent file))).
  { rewrite H at 1. apply last_last. }
  apply (f_equal String.length) in Hlast.
  unfold replace, str_path in Hlast.
  rewrite str_map_length, string_length_app in Hlast. simpl in Hlast.
  pose proof (concat_last_length (parent file)). lia.
Qed.

(** What the placement of an unresolvable file does: the quarantine
    subdirectory is created when missing, the file is copied into it under
    its own name, and then line 142 raises [TypeError] on
    [target_directory / None]. *)
Lemma place_unresolved (w : collaborators) (g : globals) (file : Path)
    (s : state) (c : string) :
  get_date w file = Ok None ->
  is_component (name file) = true ->
  fs s !! file = Some (File c) ->
  (fs s !! quarantine g file = None /\ fs s !! failed_dir g = Some Dir
   \/ fs s !! quarantine g file = Some Dir) ->
  fs s !! (quarantine g file ++ [name file]) <> Some Dir ->
  place w g file s
  = (Raise TypeError,
     {| fs := <[(quarantine g file ++ [name file]) := File c]>
                (<[quarantine g file := Dir]> (fs s));
        trace := trace s
                 ++ match fs s !! quarantine g file with
                    | None => [EvMkdir (quarantine g file)]
                    | Some _ => []
                    end
                 ++ [EvCopy file (quarantine g file ++ [name file])] |}).
Proof.
  intros Hdate Hname Hfile Hq Hdst. unfold place.
  assert (Hne := quarantine_not_source g file).
  rewrite (bind_ok _ _ s s None)
    by (unfold lift; now rewrite (get_new_name_unresolved w file Hdate)).
  rewrite target_directory_unresolved.
  set (q := quarantine g file) in *.
  rewrite (bind_ok _ _ _ _ _ (is_dir_spec q s)).
  assert (Hfq : file <> q).
  { intros Heq. rewrite Heq in Hfile. destruct Hq as [[Hq _]|Hq]; congruence. }
  destruct Hq as [[Hq Hfailed]|Hq].
  - rewrite bool_decide_eq_false_2 by congruence.
    assert (Hpar : fs s !! parent q = Some Dir)
      by (unfold q, quarantine; now rewrite parent_child).
    rewrite (bind_ok _ _ _ _ _ (mkdir_ok q s Hq Hpar)).
    unfold copy_then_rename.
    erewrite bind_ok; cycle 1.
    { apply (copy_into_dir file q _ c Hname); simpl.
      - apply lookup_insert_eq.
      - now rewrite lookup_insert_ne by congruence.
      - exact Hne.
      - rewrite lookup_insert_ne by (apply not_eq_sym, child_neq). exact Hdst. }
    unfold mbind, M_bind, lift. simpl. rewrite Hq.
    now rewrite <- app_assoc.
  - rewrite bool_decide_eq_true_2 by exact Hq.
    rewrite (bind_ok _ _ s s tt) by reflexivity.
    unfold copy_then_rename.
    erewrite bind_ok; cycle 1.
    { apply (copy_into_dir file q _ c Hname); assumption. }
    unfold mbind, M_bind, lift. simpl. rewrite Hq.
    now rewrite (insert_id (fs s) q Dir Hq).
Qed.

(** C5, evaluated on the code.  The file [IMG_20231399_256199.jpg] has no
    readable metadata and a name whose 14 digits form no date, so no
    strategy of the specification resolves it and it belongs in quarantine.
    Whatever the date parser would answer, its task ends on the [NameError]
    of line 51 (the slip of C1), which [get_date] does not catch: nothing
    is written, and the file is not under the failed root. *)
Theorem unresolvable_digits_not_quarantined :
  forall parse : string -> result string,
    spec_name_resolves "IMG_20231399_256199.jpg" = false
    /\ copy_and_rename_file
         {| get_json := fun _ => Raise ValueError; dateutil_parse := parse |}
         args_jpg globals_out ["in"; "IMG_20231399_256199.jpg"]
         {| fs := tree_no_date; trace := [] |}
       = (Raise NameError, {| fs := tree_no_date; trace := [] |})
    /\ tree_no_date
         !! (quarantine globals_out ["in"; "IMG_20231399_256199.jpg"]
             ++ ["IMG_20231399_256199.jpg"]) = None.
Proof.
  intros parse. split; [reflexivity|]. split; [|reflexivity].
  unfold copy_and_rename_file.
  rewrite (bind_ok _ _ _ {| fs := tree_no_date; trace := [] |} true)
    by (vm_compute; reflexivity).
  unfold place, get_new_name.
  rewrite (get_date_14_digits _ _ ValueError); reflexivity.
Qed.

(** X18.  A processed file on which the Date Resolver returns [None] is
    copied under the failed root, into the subdirectory named by the path
    of its parent directory with every separator replaced by an underscore,
    under its own name; that subdirectory and that copy are the only
    entries of the file tree that change, so nothing appears under a year
    bucket. *)
Theorem unresolved_goes_to_quarantine (w : collaborators) (a : args) (g : globals)
    (file : Path) (s : state) (c : string) :
  passes_filters a g file s = (Ok true, s) ->
  get_date w file = Ok None ->
  is_component (name file) = true ->
  fs s !! file = Some (File c) ->
  fs s !! failed_dir g = Some Dir ->
  (fs s !! quarantine g file = None \/ fs s !! quarantine g file = Some Dir) ->
  fs s !! (quarantine g file ++ [name file]) <> Some Dir ->
  fs (snd (copy_and_rename_file w a g file s)) !! (quarantine g file ++ [name file])
  = Some (File c)
  /\ fs (snd (copy_and_rename_file w a g file s)) !! quarantine g file = Some Dir
  /\ (forall p : Path,
        p <> quarantine g file -> p <> quarantine g file ++ [name file] ->
        fs (snd (copy_and_rename_file w a g file s)) !! p = fs s !! p).
Proof.
  intros Hpass Hdate Hname Hfile Hfailed Hq Hdst.
  unfold copy_and_rename_file. rewrite (bind_ok _ _ _ _ _ Hpass).
  rewrite (place_unresolved w g file s c Hdate Hname Hfile); [|tauto|exact Hdst].
  simpl. split; [|split].
  - apply lookup_insert_eq.
  - rewrite lookup_insert_ne by apply child_neq. apply lookup_insert_eq.
  - intros p Hp1 Hp2. now rewrite !lookup_insert_ne by congruence.
Qed.

(** C10.  For a processed file whose date no strategy resolves, a regular
    file of the same name that is already in its quarantine subdirectory is
    overwritten: the only effect is the copy, with no comparison, no rename
    and no skip record, and the task then ends on the [TypeError] of line
    142, which the pool drops. *)
Theorem unresolved_overwrites (w : collaborators) (a : args) (g : globals)
    (file : Path) (s : state) (c c_old : string) :
  passes_filters a g file s = (Ok true, s) ->
  get_date w file = Ok None ->
  is_component (name file) = true ->
  fs s !! file = Some (File c) ->
  fs s !! quarantine g file = Some Dir ->
  fs s !! (quarantine g file ++ [name file]) = Some (File c_old) ->
  copy_and_rename_file w a g file s
  = (Raise TypeError,
     {| fs := <[quarantine g file ++ [name file] := File c]> (fs s);
        trace := trace s ++ [EvCopy file (quarantine g file ++ [name file])] |}).
Proof.
  intros Hpass Hdate Hname Hfile Hq Hold.
  unfold copy_and_rename_file. rewrite (bind_ok _ _ _ _ _ Hpass).
  rewrite (place_unresolved w g file s c Hdate Hname Hfile); [|tauto|congruence].
  now rewrite Hq, (insert_id (fs s) _ Dir Hq).
Qed.

Lemma unresolved_goes_to_quarantine_witness :
  fs (snd (copy_and_rename_file without_metadata args_jpg globals_out
             ["in"; "scan.jpg"] {| fs := tree_scan_ready; trace := [] |}))
    !! ["out"; "failed"; "_in"; "scan.jpg"] = Some (File "S").
Proof.
  apply (unresolved_goes_to_quarantine without_metadata args_jpg globals_out
           ["in"; "scan.jpg"] {| fs := tree_scan_ready; trace := [] |} "S").
  - vm_compute. reflexivity.
  - reflexivity.
  - reflexivity.
  - reflexivity.
  - reflexivity.
  - left. reflexivity.
  - vm_compute. discriminate.
Defined.

Lemma unresolved_overwrites_witness :
  fst (copy_and_rename_file without_metadata args_jpg globals_out
         ["in"; "scan.jpg"] {| fs := tree_scan_quarantined; trace := [] |})
  = Raise TypeError.
Proof.
  rewrite (unresolved_overwrites without_metadata args_jpg globals_out
             ["in"; "scan.jpg"] {| fs := tree_scan_quarantined; trace := [] |}
             "S" "old").
  - reflexivity.
  - vm_compute. reflexivity.
  - reflexivity.
  - reflexivity.
  - reflexivity.
  - reflexivity.
  - reflexivity.
Defined.

(** ** Duplicates *)

(** The filter chain reads the file tree and changes nothing. *)
Lemma passes_filters_state (a : args) (g : globals) (file : Path) (s : state) :
  snd (passes_filters a g file s) = s.
Proof.
  unfold passes_filters. rewrite (bind_ok _ _ _ _ _ (is_dir_spec file s)).
  destruct (bool_decide _); [reflexivity|].
  destruct (negb _); [reflexivity|].
  destruct (negb _); [reflexivity|].
  unfold mbind, M_bind, lift.
  destruct (arg_exclude a) as [excl|]; [|reflexivity].
  now destruct (existsb _ excl).
Qed.

Lemma files_equal_spec (f1 f2 : Path) (s : state) (c1 c2 : string) :
  fs s !! f1 = Some (File c1) -> fs s !! f2 = Some (File c2) ->
  files_equal f1 f2 s
  = (Ok (String.eqb c1 c2),
     {| fs := fs s; trace := trace s ++ [EvCompare f1 f2] |}).
Proof.
  intros H1 H2.
  unfold files_equal, mbind, M_bind, emit, read_bytes, mret, M_ret. cbn [fs].
  rewrite H1. cbn beta iota. cbn [fs]. now rewrite H2.
Qed.






(** ** Collisions *)

Lemma substring_full (p : string) : substring 0 (String.length p) p = p.
Proof. induction p as [|x p IH]; simpl; [reflexivity | now rewrite IH]. Qed.

Lemma take_drop (k : nat) (p : string) : take k p +:+ drop k p = p.
Proof.
  unfold take, drop. revert k.
  induction p as [|x p IH]; intros [|k]; try reflexivity.
  - rewrite Nat.sub_0_r, substring_full. reflexivity.
  - change (String x (substring 0 k p +:+ substring k (String.length p - k) p)
            = String x p).
    f_equal. apply IH.
Qed.

Lemma splitext_app (p : string) : fst (splitext p) +:+ snd (splitext p) = p.
Proof.
  unfold splitext. destruct (_ && _); simpl.
  - apply take_drop.
  - clear. induction p as [|x p IH]; [reflexivity|].
    change (String x (p +:+ "") = String x p). now rewrite IH.
Qed.

Lemma collision_name_fresh (n : string) : collision_name n <> n.
Proof.
  intros H. apply (f_equal String.length) in H.
  pose proof (f_equal String.length (splitext_app n)) as E.
  unfold collision_name in H.
  rewrite string_length_app in E.
  rewrite string_length_app in H. rewrite string_length_app in H.
  simpl in H. lia.
Qed.

(** Lines 140-143 for a file whose own name is not the destination name:
    the copy lands under the own name and is moved to the destination. *)
Lemma copy_then_rename_moves (file d : Path) (s : state) (c n : string) :
  is_component (name file) = true ->
  is_component n = true ->
  name file <> n ->
  fs s !! d = Some Dir ->
  fs s !! file = Some (File c) ->
  file <> d ++ [name file] ->
  fs s !! (d ++ [name file]) <> Some Dir ->
  fs s !! (d ++ [n]) <> Some Dir ->
  copy_then_rename file d (Some n) s
  = (Ok tt,
     {| fs := <[d ++ [n] := File c]>
                (delete (d ++ [name file]) (<[d ++ [name file] := File c]> (fs s)));
        trace := trace s ++ [EvCopy file (d ++ [name file]);
                             EvRename (d ++ [name file]) (d ++ [n]);
                             EvLogCopied file (d ++ [n])] |}).
Proof.
  intros Hname Hn Hdiff Hd Hfile Hne Htmp Hdst. unfold copy_then_rename.
  rewrite (bind_ok _ _ _ _ _ (copy_into_dir file d s c Hname Hd Hfile Hne Htmp)).
  rewrite (truediv_component d _ Hname), (truediv_component d _ Hn).
  rewrite (bind_ok _ _ _ _ (d ++ [n])) by reflexivity.
  assert (Hpaths : d ++ [name file] <> d ++ [n]).
  { intros H. apply app_inv_head in H. congruence. }
  erewrite bind_ok; cycle 1.
  { apply (rename_file _ _ _ c); cbn [fs].
    - apply lookup_insert_eq.
    - exact Hpaths.
    - now rewrite lookup_insert_ne.
    - rewrite parent_child, lookup_insert_ne by apply child_neq. exact Hd. }
  unfold emit. cbn [fs trace].
  now rewrite <- !app_assoc.
Qed.

(** COPY_WITH_RENAME in the ordinary case: the canonical destination holds
    other bytes, and the own name of the file is free in the bucket.  The
    file is stored under the [_collision] name and the file at the
    canonical name is untouched. *)
Lemma collision_keeps_both (w : collaborators) (g : globals) (file : Path)
    (s : state) (n c c1 : string) :
  get_new_name w file = Ok (Some n) ->
  is_component (name file) = true ->
  is_component n = true ->
  is_component (collision_name n) = true ->
  name file <> collision_name n ->
  fs s !! (out_dir g // take 4 n) = Some Dir ->
  fs s !! (out_dir g // take 4 n ++ [n]) = Some (File c1) ->
  fs s !! file = Some (File c) ->
  c <> c1 ->
  file <> out_dir g // take 4 n ++ [name file] ->
  fs s !! (out_dir g // take 4 n ++ [name file]) = None ->
  fs s !! (out_dir g // take 4 n ++ [collision_name n]) <> Some Dir ->
  fs (snd (place w g file s)) !! (out_dir g // take 4 n ++ [n]) = Some (File c1)
  /\ fs (snd (place w g file s)) !! (out_dir g // take 4 n ++ [collision_name n])
     = Some (File c).
Proof.
  intros Hnew Hname Hn Hcn Hdiff Hd Hcanon Hfile Hc Hne Hfree Hcoll.
  set (d := out_dir g // take 4 n) in *.
  assert (Hown : name file <> n) by (intros E; rewrite E in Hfree; congruence).
  unfold place.
  rewrite (bind_ok _ _ s s (Some n)) by (unfold lift; now rewrite Hnew).
  cbn [target_directory_of]. fold d.
  rewrite (bind_ok _ _ _ _ _ (is_dir_spec d s)).
  rewrite bool_decide_eq_true_2 by exact Hd.
  rewrite (bind_ok _ _ s s tt) by reflexivity.
  rewrite (truediv_component d n Hn).
  rewrite (bind_ok _ _ s s true) by (unfold exists_; now rewrite Hcanon).
  rewrite (bind_ok _ _ _ _ _ (files_equal_spec _ _ s c1 c Hcanon Hfile)).
  assert (Heq : String.eqb c1 c = false) by (apply String.eqb_neq; congruence).
  rewrite Heq. cbn [negb].
  pose proof (collision_name_fresh n) as Hfresh.
  unfold collision_name in *. destruct (splitext n) as [stem ext]. cbn [fst snd] in *.
  rewrite (copy_then_rename_moves file d _ c _ Hname Hcn Hdiff); cbn [fs];
    try assumption; [|congruence].
  cbn [snd fs].
  split.
  - rewrite lookup_insert_ne by (intros H; apply app_inv_head in H; congruence).
    rewrite lookup_delete_ne by (intros H; apply app_inv_head in H; congruence).
    rewrite lookup_insert_ne by (intros H; apply app_inv_head in H; congruence).
    exact Hcanon.
  - apply lookup_insert_eq.
Qed.

Example collision_in_other_order :
  output_files
    (snd (main (with_metadata capture_2023) args_jpg "y"
            [["in"; "edited"; "2023.04.15_15.30.00.jpg"];
             ["in"; "holiday"; "IMG_0001.jpg"]]
            {| fs := tree_two_versions; trace := [] |}))
  = [(["out"; "2023"; "2023.04.15_15.30.00_collision.jpg"], File "original");
     (["out"; "2023"; "2023.04.15_15.30.00.jpg"], File "edited")].
Proof. vm_compute. reflexivity. Qed.

(** C4, evaluated on the code.  A photo and a different file that is itself
    named like the canonical destination, both with the capture time
    2023-04-15 15:30:00, are processed in that order.  The photo gets the
    canonical name; the second file is then copied into the bucket under its
    own name, which is the canonical name, over the photo, and renamed to
    the [_collision] name.  Only the second file is left in the output
    tree. *)
Theorem collision_copy_overwrites_first :
  output_files
    (snd (main (with_metadata capture_2023) args_jpg "y"
            [["in"; "holiday"; "IMG_0001.jpg"]]
            {| fs := tree_two_versions; trace := [] |}))
  = [(["out"; "2023"; "2023.04.15_15.30.00.jpg"], File "original")]
  /\ output_files
       (snd (main (with_metadata capture_2023) args_jpg "y"
               [["in"; "holiday"; "IMG_0001.jpg"];
                ["in"; "edited"; "2023.04.15_15.30.00.jpg"]]
               {| fs := tree_two_versions; trace := [] |}))
     = [(["out"; "2023"; "2023.04.15_15.30.00_collision.jpg"], File "edited")].
Proof. split; vm_compute; reflexivity. Qed.

(** * Further properties *)

(** ** Reasoning about computations *)

Lemma hoare_ret {A : Type} (P : state -> Prop) (x : A) (Q : result A -> state -> Prop) :
  (forall s, P s -> Q (Ok x) s) -> hoare P (mret x) Q.
Proof. intros H s Hs. now apply H. Qed.

Lemma hoare_bind {A B : Type} (P : state -> Prop) (m : M A) (f : A -> M B)
    (Q : result A -> state -> Prop) (R : result B -> state -> Prop) :
  hoare P m Q ->
  (forall x, hoare (Q (Ok x)) (f x) R) ->
  (forall e s, Q (Raise e) s -> R (Raise e) s) ->
  hoare P (m ≫= f) R.
Proof.
  intros Hm Hf He s Hs. specialize (Hm s Hs).
  unfold mbind, M_bind. destruct (m s) as [[x|e] s1]; simpl in *.
  - now apply Hf.
  - now apply He.
Qed.


Lemma inv_pure {A : Type} (I : state -> Prop) (m : M A) :
  (forall s, snd (m s) = s) -> hoare I m (fun _ => I).
Proof. intros H s Hs. now rewrite H. Qed.

(** Steps that leave the file tree alone. *)
Lemma inv_tree {A : Type} (q : Path) (v : option node) (m : M A) :
  (forall s, fs (snd (m s)) = fs s) ->
  hoare (fun s => fs s !! q = v) m (fun _ s => fs s !! q = v).
Proof. intros H s Hs. now rewrite H. Qed.

Lemma files_equal_tree (f1 f2 : Path) (s : state) :
  fs (snd (files_equal f1 f2 s)) = fs s.
Proof.
  unfold files_equal, mbind, M_bind, emit, read_bytes, mret, M_ret. cbn [fs].
  destruct (fs s !! f1) as [[c1|]|]; try reflexivity. cbn [fs].
  destruct (fs s !! f2) as [[c2|]|]; reflexivity.
Qed.




Lemma lift_ok_bind {A B : Type} (x : A) (f : A -> M B) : lift (Ok x) ≫= f = f x.
Proof. reflexivity. Qed.

Lemma lift_raise_bind {A B : Type} (e : exn) (f : A -> M B) :
  lift (Raise e) ≫= f = raise e.
Proof. reflexivity. Qed.

Lemma emit_tree (e : event) (s : state) : fs (snd (emit e s)) = fs s.
Proof. reflexivity. Qed.

(** ** What a task may write *)






(** ** The source file of a task *)

(** [mkdir] never replaces an entry, and leaves a directory behind when it
    returns. *)
Lemma mkdir_keeps (p q : Path) (n : node) :
  hoare (fun s => fs s !! q = Some n) (mkdir p)
        (fun r s => fs s !! q = Some n /\ (r = Ok tt -> fs s !! p = Some Dir)).
Proof.
  intros s Hs. unfold mkdir.
  destruct (fs s !! p) eqn:Hp; [split; [exact Hs | discriminate]|].
  destruct (fs s !! parent p) as [[c|]|]; simpl;
    try (split; [exact Hs | discriminate]).
  split; [|intros _; apply lookup_insert_eq].
  rewrite lookup_insert_ne; [exact Hs | congruence].
Qed.

(** [copy] into a directory never writes onto its source; when it returns,
    the copy under the name of the source holds the content of the source. *)
Lemma copy_keeps_source (src d : Path) (c : string) :
  hoare (fun s => fs s !! src = Some (File c) /\ fs s !! d = Some Dir)
        (copy src d)
        (fun r s => fs s !! src = Some (File c)
                    /\ (forall x, r = Ok x ->
                                  src <> d // name src
                                  /\ fs s !! (d // name src) = Some (File c))).
Proof.
  intros s [Hsrc Hd].
  unfold copy, mbind, M_bind, is_dir, exists_, raise, read_bytes, write_bytes,
    emit, mret, M_ret.
  rewrite Hd, Hsrc. cbn beta iota.
  case_bool_decide as Hsame; cbn [andb]; [split; [exact Hsrc | discriminate]|].
  rewrite Hsrc. cbn beta iota.
  destruct (fs s !! (d // name src)) as [[c'|]|];
    try (split; [exact Hsrc | discriminate]);
    destruct (fs s !! parent (d // name src)) as [[c''|]|]; simpl;
    try (split; [exact Hsrc | discriminate]);
    (split; [now rewrite lookup_insert_ne by congruence
            | intros x _; split; [exact Hsame | apply lookup_insert_eq]]).
Qed.

(** Renaming another file that holds the same content cannot change what
    is found at [file], even when [file] is the destination. *)
Lemma rename_keeps (a b file : Path) (c : string) :
  hoare (fun s => fs s !! file = Some (File c)
                  /\ file <> a /\ fs s !! a = Some (File c))
        (rename a b) (fun _ s => fs s !! file = Some (File c)).
Proof.
  intros s (Hfile & Hne & Ha). unfold rename. rewrite Ha.
  case_bool_decide; [exact Hfile|].
  destruct (fs s !! b) as [[c'|]|]; try exact Hfile;
    destruct (fs s !! parent b) as [[c''|]|]; simpl; try exact Hfile;
    (destruct (decide (b = file)) as [->|Hb];
     [apply lookup_insert_eq
     | now rewrite lookup_insert_ne, lookup_delete_ne by congruence]).
Qed.

Lemma copy_then_rename_keeps (file td : Path) (new_name : option string)
    (c : string) :
  hoare (fun s => fs s !! file = Some (File c) /\ fs s !! td = Some Dir)
        (copy_then_rename file td new_name)
        (fun _ s => fs s !! file = Some (File c)).
Proof.
  unfold copy_then_rename.
  eapply hoare_bind; [apply copy_keeps_source | | intros e s [H _]; exact H].
  intros dst. destruct new_name as [n|].
  - rewrite lift_ok_bind.
    eapply hoare_bind with (Q := fun _ s => fs s !! file = Some (File c)).
    + intros s [Hfile Hcopy]. destruct (Hcopy dst eq_refl) as [Hne Htmp].
      now apply (rename_keeps _ _ file c).
    + intros _. apply inv_tree. reflexivity.
    + auto.
  - rewrite lift_raise_bind. intros s [H _]. exact H.
Qed.

Lemma place_keeps (w : collaborators) (g : globals) (file : Path) (c : string) :
  hoare (fun s => fs s !! file = Some (File c)) (place w g file)
        (fun _ s => fs s !! file = Some (File c)).
Proof.
  unfold place.
  destruct (get_new_name w file) as [new_name|e];
    [rewrite lift_ok_bind | rewrite lift_raise_bind; now intros s H].
  set (td := target_directory_of g new_name file).
  eapply hoare_bind with
    (Q := fun r s => fs s !! file = Some (File c)
                     /\ (r = Ok true -> fs s !! td = Some Dir)).
  { intros s H. split; [exact H|]. unfold is_dir. simpl.
    destruct (fs s !! td) as [[c'|]|]; try discriminate. reflexivity. }
  2: { intros e s [H _]. exact H. }
  intros d.
  eapply hoare_bind with
    (Q := fun r s => fs s !! file = Some (File c)
                     /\ (r = Ok tt -> fs s !! td = Some Dir)).
  { destruct d.
    - intros s [H Hd]. split; [exact H | intros _; now apply Hd].
    - intros s [H _]. now apply (mkdir_keeps td file (File c)). }
  2: { intros e s [H _]. exact H. }
  intros []. 
  assert (Hstart : forall s, fs s !! file = Some (File c)
                             /\ (Ok tt = Ok tt -> fs s !! td = Some Dir) ->
                             fs s !! file = Some (File c) /\ fs s !! td = Some Dir)
    by (intros s [H Hd]; auto).
  destruct new_name as [n|].
  - eapply hoare_bind with
      (Q := fun _ s => fs s !! file = Some (File c) /\ fs s !! td = Some Dir).
    { intros s H. now apply Hstart. }
    2: { intros e s [H _]. exact H. }
    intros e. destruct e.
    + eapply hoare_bind with
        (Q := fun _ s => fs s !! file = Some (File c) /\ fs s !! td = Some Dir).
      { intros s H. now rewrite files_equal_tree. }
      2: { intros e s [H _]. exact H. }
      intros same. destruct same; cbn [negb].
      * intros s [H _]. exact H.
      * destruct (splitext n) as [stem ext]. apply copy_then_rename_keeps.
    + apply copy_then_rename_keeps.
  - intros s H. apply copy_then_rename_keeps. now apply Hstart.
Qed.

(** X2.  A task never changes or removes the file it is given: wherever that
    file lies, it is after the task the regular file it was before, with the
    same content. *)
Theorem task_keeps_source (w : collaborators) (a : args) (g : globals)
    (file : Path) (s : state) (c : string) :
  fs s !! file = Some (File c) ->
  fs (snd (copy_and_rename_file w a g file s)) !! file = Some (File c).
Proof.
  intros Hfile. unfold copy_and_rename_file.
  apply (hoare_bind (fun s => fs s !! file = Some (File c)) _ _
           (fun _ s => fs s !! file = Some (File c))
           (fun _ s => fs s !! file = Some (File c))); [| |auto|exact Hfile].
  - apply inv_pure. intros s'. apply passes_filters_state.
  - intros ok. destruct ok; [apply place_keeps | now intros s' H].
Qed.

Lemma task_keeps_source_witness :
  fs (snd (copy_and_rename_file (with_metadata capture_2023) args_jpg globals_out
             ["in"; "holiday"; "IMG_0001.jpg"]
             {| fs := tree_edited_placed; trace := [] |}))
    !! ["in"; "holiday"; "IMG_0001.jpg"] = Some (File "original").
Proof.
  apply (task_keeps_source (with_metadata capture_2023) args_jpg globals_out
           ["in"; "holiday"; "IMG_0001.jpg"]
           {| fs := tree_edited_placed; trace := [] |} "original").
  reflexivity.
Defined.

(** ** Date Resolver: error and edge behaviour *)

(** X3.  As the code stands the filename strategy never returns a date, so every
    date the Date Resolver returns is the one the metadata strategy
    returned. *)
Theorem resolved_date_is_from_metadata (w : collaborators) (path : Path)
    (date : string) :
  get_date w path = Ok (Some date) ->
  parse_date_from_metadata w path metadata_keys = Ok date
  /\ forall filename d, parse_filename_to_date w filename <> Ok d.
Proof.
  intros Hdate.
  assert (Hnever : forall filename d, parse_filename_to_date w filename <> Ok d).
  { intros filename d. unfold parse_filename_to_date.
    destruct (splitext filename) as [stem ext].
    destruct (negb _); discriminate. }
  split; [|exact Hnever].
  unfold get_date in Hdate. simpl in Hdate.
  destruct (parse_date_from_metadata w path metadata_keys) as [d|e].
  - now injection Hdate as ->.
  - destruct (caught e); [|discriminate].
    destruct (parse_filename_to_date w (name path)) as [d|e'] eqn:E.
    + now apply Hnever in E.
    + destruct (caught e'); discriminate.
Qed.

Lemma resolved_date_is_from_metadata_witness :
  parse_date_from_metadata (with_metadata capture_2023)
    ["in"; "holiday"; "IMG_0001.jpg"] metadata_keys = Ok "2023:04:15 15:30:00".
Proof.
  apply (resolved_date_is_from_metadata (with_metadata capture_2023)
           ["in"; "holiday"; "IMG_0001.jpg"] "2023:04:15 15:30:00").
  reflexivity.
Defined.

(** X4.  Readable metadata without any of the three keys counts as no metadata:
    the metadata strategy raises [KeyError], and the Date Resolver answers
    as the filename strategy does, [None] for a name without exactly 14
    digits and [NameError] for a name with 14 digits. *)
Theorem no_date_key_falls_back (w : collaborators) (path : Path)
    (md : gmap string json) (rest : list (gmap string json)) :
  get_json w path = Ok (md :: rest) ->
  (forall key, key ∈ metadata_keys -> md !! key = None) ->
  parse_date_from_metadata w path metadata_keys = Raise KeyError
  /\ get_date w path =
     if (String.length (re_sub_non_digits (fst (splitext (name path)))) =? 14)%nat
     then Raise NameError else Ok None.
Proof.
  intros Hjson Hnone.
  assert (Hmeta : parse_date_from_metadata w path metadata_keys = Raise KeyError).
  { rewrite (parse_date_from_metadata_readable w path md rest _ Hjson).
    unfold metadata_keys in *. simpl.
    rewrite !Hnone by set_solver. reflexivity. }
  split; [exact Hmeta|].
  destruct (Nat.eqb_spec (String.length (re_sub_non_digits (fst (splitext (name path)))))
              14) as [Hlen|Hlen].
  - now apply (get_date_14_digits w path KeyError).
  - rewrite (get_date_fallback w path KeyError Hmeta eq_refl).
    now rewrite (parse_filename_other w _ Hlen).
Qed.

Lemma no_date_key_falls_back_witness :
  get_date (with_metadata no_date_keys) ["in"; "scan.jpg"] = Ok None.
Proof.
  apply (no_date_key_falls_back (with_metadata no_date_keys) ["in"; "scan.jpg"]
           no_date_keys []).
  - reflexivity.
  - intros key Hkey. unfold metadata_keys in Hkey.
    repeat (apply elem_of_cons in Hkey as [->|Hkey]; [reflexivity|]).
    now apply elem_of_nil in Hkey.
Defined.

(** X5.  An exception of the metadata strategy that [get_date] does not catch,
    such as the [IndexError] of [get_json(path)[0]] on an empty list, ends
    the task: the filename strategy is not tried, nothing is written and
    the file is not quarantined. *)
Theorem uncaught_metadata_error_ends_task (w : collaborators) (a : args)
    (g : globals) (file : Path) (s : state) (e : exn) :
  parse_date_from_metadata w file metadata_keys = Raise e ->
  caught e = false ->
  passes_filters a g file s = (Ok true, s) ->
  get_date w file = Raise e
  /\ copy_and_rename_file w a g file s = (Raise e, s).
Proof.
  intros Hmeta Hc Hpass.
  assert (Hdate : get_date w file = Raise e).
  { unfold get_date. simpl. now rewrite Hmeta, Hc. }
  split; [exact Hdate|].
  unfold copy_and_rename_file. rewrite (bind_ok _ _ _ _ _ Hpass).
  unfold place, get_new_name. rewrite Hdate. reflexivity.
Qed.

Lemma uncaught_metadata_error_ends_task_witness :
  copy_and_rename_file empty_reader args_jpg globals_out ["in"; "scan.jpg"]
    {| fs := tree_scan_ready; trace := [] |}
  = (Raise IndexError, {| fs := tree_scan_ready; trace := [] |}).
Proof.
  apply (uncaught_metadata_error_ends_task empty_reader args_jpg globals_out
           ["in"; "scan.jpg"] {| fs := tree_scan_ready; trace := [] |} IndexError).
  - reflexivity.
  - reflexivity.
  - vm_compute. reflexivity.
Defined.

Lemma replace_absent (a b : ascii) (s : string) :
  a <> b -> has_char a (replace a b s) = false.
Proof.
  intros Hab. unfold replace. induction s as [|x s IH]; simpl; [reflexivity|].
  rewrite IH, orb_false_r.
  destruct (Ascii.eqb_spec x a) as [->|Hx]; now apply Ascii.eqb_neq.
Qed.

Lemma replace_keeps_absent (a b c : ascii) (s : string) :
  c <> b -> has_char c s = false -> has_char c (replace a b s) = false.
Proof.
  intros Hcb. unfold replace. induction s as [|x s IH]; simpl; [reflexivity|].
  intros H. apply orb_false_iff in H as [Hx Hs]. rewrite (IH Hs), orb_false_r.
  destruct (Ascii.eqb x a); [|exact Hx].
  apply Ascii.eqb_neq. congruence.
Qed.

(** X6.  A new name is never empty; it is the date with every space turned into
    an underscore and every colon into a period, so that part has the
    length of the date and neither spaces nor colons, followed by the
    lowercased suffix of the file. *)
Theorem new_name_shape (w : collaborators) (path : Path) (n : string) :
  get_new_name w path = Ok (Some n) ->
  n <> ""
  /\ exists date : string,
       get_date w path = Ok (Some date)
       /\ n = sanitized date +:+ lower (suffix path)
       /\ String.length (sanitized date) = String.length date
       /\ has_char " " (sanitized date) = false
       /\ has_char ":" (sanitized date) = false.
Proof.
  unfold get_new_name. intros H.
  destruct (get_date w path) as [[[|x date]|]|e]; simpl in H; try discriminate.
  injection H as <-. split; [discriminate|].
  exists (String x date). repeat split.
  - apply sanitized_length.
  - unfold sanitized. apply replace_keeps_absent; [discriminate|].
    apply replace_absent. discriminate.
  - unfold sanitized. apply replace_absent. discriminate.
Qed.

Lemma new_name_shape_witness :
  "2023.04.15_15.30.00.jpg" <> ""
  /\ exists date : string,
       get_date (with_metadata capture_2023) ["in"; "holiday"; "IMG_0001.JPG"]
       = Ok (Some date)
       /\ "2023.04.15_15.30.00.jpg"
          = sanitized date +:+ lower (suffix ["in"; "holiday"; "IMG_0001.JPG"])
       /\ String.length (sanitized date) = String.length date
       /\ has_char " " (sanitized date) = false
       /\ has_char ":" (sanitized date) = false.
Proof.
  apply (new_name_shape (with_metadata capture_2023) ["in"; "holiday"; "IMG_0001.JPG"]
           "2023.04.15_15.30.00.jpg").
  reflexivity.
Defined.

(** ** Orchestrator: setup, exit status and the worker pool *)

(** X7.  [create_dir] returns the path it was given and never raises
    [FileExistsError]; once it has returned, calling it again changes
    nothing. *)
Theorem create_dir_idempotent (directory d' : Path) (s s' : state) :
  create_dir directory s = (Ok d', s') ->
  d' = directory
  /\ create_dir directory s' = (Ok directory, s')
  /\ forall s0, fst (create_dir directory s0) <> Raise FileExistsError.
Proof.
  intros Hrun.
  destruct (create_dir_spec directory d' s s' Hrun) as [-> Hs'].
  split; [reflexivity|]. split.
  - assert (Hexists : fs s' !! directory <> None).
    { destruct Hs' as [->|[_ ->]]; simpl.
      - unfold create_dir, mkdir in Hrun.
        destruct (fs s !! directory) eqn:E; [discriminate|].
        destruct (fs s !! parent directory) as [[c|]|]; try discriminate.
        injection Hrun as Hrun.
        apply (f_equal (fun st => fs st !! directory)) in Hrun. simpl in Hrun.
        rewrite lookup_insert_eq in Hrun. congruence.
      - now rewrite lookup_insert_eq. }
    unfold create_dir, mkdir.
    destruct (fs s' !! directory); [reflexivity | contradiction].
  - intros s0. unfold create_dir, mkdir.
    destruct (fs s0 !! directory); [discriminate|].
    destruct (fs s0 !! parent directory) as [[c|]|]; discriminate.
Qed.

Lemma create_dir_idempotent_witness :
  create_dir ["out"] (snd (create_dir ["out"] {| fs := tree_in; trace := [] |}))
  = (Ok ["out"], snd (create_dir ["out"] {| fs := tree_in; trace := [] |})).
Proof.
  apply (create_dir_idempotent ["out"] ["out"] {| fs := tree_in; trace := [] |}
           (snd (create_dir ["out"] {| fs := tree_in; trace := [] |}))).
  vm_compute. reflexivity.
Defined.

Lemma create_dir_raises (directory : Path) (s s' : state) (e : exn) :
  create_dir directory s = (Raise e, s') ->
  e = NotADirectoryError \/ e = FileNotFoundError.
Proof.
  unfold create_dir, mkdir.
  destruct (fs s !! directory); [discriminate|].
  destruct (fs s !! parent directory) as [[c|]|]; intros [= <- _]; auto.
Qed.

Lemma setup_log_file_raises (filename : Path) (s s' : state) (e : exn) :
  setup_log_file filename s = (Raise e, s') ->
  e = IsADirectoryError \/ e = NotADirectoryError \/ e = FileNotFoundError.
Proof.
  unfold setup_log_file, mbind, M_bind, open_append, emit.
  destruct (fs s !! filename) as [[c|]|]; try discriminate.
  - intros [= <- _]. auto.
  - destruct (fs s !! parent filename) as [[c|]|]; try discriminate;
      intros [= <- _]; auto.
Qed.

(** X8.  The assertion of line 28 fires exactly when the output root lies
    directly in the input root, and then the program stops with
    [AssertionError] before it has done anything. *)
Theorem output_in_input_is_rejected (w : collaborators) (a : args)
    (response : string) (files : list Path) (s : state) :
  (fst (setup_args a s) = Raise AssertionError <-> parent (arg_out a) = arg_dir a)
  /\ (parent (arg_out a) = arg_dir a ->
      main w a response files s = (Raise AssertionError, s)).
Proof.
  split; [split|].
  - intros H. unfold setup_args in H. case_bool_decide as Hp; [exact Hp|].
    exfalso. unfold mbind, M_bind, mret, M_ret in H.
    destruct (match arg_log a with Some f => setup_log_file f | None => _ end s)
      as [[[]|e] sa] eqn:Hlog.
    2: { destruct (arg_log a) as [filename|]; [|discriminate].
         simpl in H. apply setup_log_file_raises in Hlog.
         destruct Hlog as [->|[->| ->]]; discriminate. }
    destruct (create_dir (arg_out a) sa) as [[d1|e] sb] eqn:H1.
    + destruct (create_dir (d1 // "failed") sb) as [[d2|e] sc] eqn:H2;
        [discriminate|].
      simpl in H. apply create_dir_raises in H2 as [->| ->]; discriminate.
    + simpl in H. apply create_dir_raises in H1 as [->| ->]; discriminate.
  - intros Hp. unfold setup_args. now rewrite bool_decide_eq_true_2.
  - intros Hp. unfold main.
    erewrite bind_raise; [reflexivity|].
    unfold setup_args. now rewrite bool_decide_eq_true_2.
Qed.

Lemma output_in_input_is_rejected_witness :
  main without_metadata args_nested "y" [["in"; "a.Jpg"]]
    {| fs := tree_in; trace := [] |}
  = (Raise AssertionError, {| fs := tree_in; trace := [] |}).
Proof.
  apply (output_in_input_is_rejected without_metadata args_nested "y"
           [["in"; "a.Jpg"]] {| fs := tree_in; trace := [] |}).
  reflexivity.
Defined.

(** X9.  Without [--log], when neither the output root nor its parent
    directory exists, the program stops with [FileNotFoundError] before the
    summary and the prompt: [create_dir] swallows [FileExistsError] only.
    The file tree is untouched and the exit status is 1. *)
Theorem missing_output_parent_is_fatal (w : collaborators) (a : args)
    (response : string) (files : list Path) (s : state) :
  arg_log a = None ->
  parent (arg_out a) <> arg_dir a ->
  fs s !! arg_out a = None ->
  fs s !! parent (arg_out a) = None ->
  fst (main w a response files s) = Raise FileNotFoundError
  /\ fs (snd (main w a response files s)) = fs s
  /\ exit_status (fst (main w a response files s)) = 1%Z.
Proof.
  intros Hlog Hp Hout Hparent.
  assert (Hmain : main w a response files s = (Raise FileNotFoundError, s)).
  { unfold main, setup_args. rewrite bool_decide_eq_false_2 by exact Hp.
    unfold mbind, M_bind, mret, M_ret, create_dir, mkdir.
    now rewrite Hlog, Hout, Hparent. }
  rewrite Hmain. auto.
Qed.

Lemma missing_output_parent_is_fatal_witness :
  fst (main without_metadata args_backup "y" [["in"; "a.Jpg"]]
         {| fs := tree_in; trace := [] |}) = Raise FileNotFoundError.
Proof.
  apply (missing_output_parent_is_fatal without_metadata args_backup "y"
           [["in"; "a.Jpg"]] {| fs := tree_in; trace := [] |}).
  - reflexivity.
  - discriminate.
  - reflexivity.
  - reflexivity.
Defined.

(** X10.  Without [--log], a regular file where the output root should be is
    accepted by the first [create_dir], which swallows the
    [FileExistsError], and stops the program at the second: the failed root
    cannot be made inside a file.  The file tree is untouched and the exit
    status is 1. *)
Theorem output_root_is_a_file (w : collaborators) (a : args)
    (response : string) (files : list Path) (s : state) (c : string) :
  arg_log a = None ->
  parent (arg_out a) <> arg_dir a ->
  fs s !! arg_out a = Some (File c) ->
  fs s !! (arg_out a // "failed") = None ->
  parent (arg_out a // "failed") = arg_out a ->
  fst (main w a response files s) = Raise NotADirectoryError
  /\ fs (snd (main w a response files s)) = fs s
  /\ exit_status (fst (main w a response files s)) = 1%Z.
Proof.
  intros Hlog Hp Hout Hfailed Hparent.
  assert (Hmain : main w a response files s = (Raise NotADirectoryError, s)).
  { unfold main, setup_args. rewrite bool_decide_eq_false_2 by exact Hp.
    unfold mbind, M_bind, mret, M_ret, create_dir, mkdir.
    rewrite Hlog, Hout. cbn beta iota.
    now rewrite Hfailed, Hparent, Hout. }
  rewrite Hmain. auto.
Qed.

Lemma output_root_is_a_file_witness :
  fst (main without_metadata args_jpg "y" [["in"; "a.Jpg"]]
         {| fs := tree_out_is_file; trace := [] |}) = Raise NotADirectoryError.
Proof.
  apply (output_root_is_a_file without_metadata args_jpg "y" [["in"; "a.Jpg"]]
           {| fs := tree_out_is_file; trace := [] |} "notes").
  - reflexivity.
  - discriminate.
  - reflexivity.
  - reflexivity.
  - reflexivity.
Defined.

Lemma executor_map_returns (task : Path -> M unit) (files : list Path) (s : state) :
  fst (executor_map task files s) = Ok tt.
Proof.
  revert s. induction files as [|file files IH]; intros s; simpl;
    [reflexivity | apply IH].
Qed.

(** X11.  Once setup has succeeded and the user has answered [y], the program
    ends normally with exit status 0 whatever the tasks do: what a task
    raises never reaches the main process. *)
Theorem task_failures_do_not_reach_exit_status (w : collaborators) (a : args)
    (files : list Path) (s s1 : state) (g : globals) :
  setup_args a s = (Ok g, s1) ->
  fst (main w a "y" files s) = Ok tt
  /\ exit_status (fst (main w a "y" files s)) = 0%Z.
Proof.
  intros Hsetup.
  assert (Hmain : fst (main w a "y" files s) = Ok tt).
  { unfold main. rewrite (bind_ok _ _ _ _ _ Hsetup).
    unfold prompt_proceed, mbind, M_bind, mret, M_ret, emit. cbn [String.eqb negb].
    destruct (arg_exclude a) as [[|ex exs]|]; simpl; apply executor_map_returns. }
  now rewrite Hmain.
Qed.

Lemma task_failures_do_not_reach_exit_status_witness :
  exit_status (fst (main without_metadata args_jpg "y"
                      [["in"; "IMG_20230415_153000.jpg"]]
                      {| fs := tree_scenario; trace := [] |})) = 0%Z.
Proof.
  apply (task_failures_do_not_reach_exit_status without_metadata args_jpg
           [["in"; "IMG_20230415_153000.jpg"]]
           {| fs := tree_scenario; trace := [] |}
           (snd (setup_args args_jpg {| fs := tree_scenario; trace := [] |}))
           globals_out).
  vm_compute. reflexivity.
Defined.

(** X12.  Without [--exclude] no task gets past the filter chain: line 118
    iterates over [None].  Every task returns at a filter or raises
    [TypeError], and the pool leaves the state exactly as it found it, so a
    run with the default options copies nothing. *)
Theorem without_exclude_nothing_is_copied (w : collaborators) (a : args)
    (g : globals) (files : list Path) (s : state) :
  arg_exclude a = None ->
  executor_map (copy_and_rename_file w a g) files s = (Ok tt, s)
  /\ forall file, fst (passes_filters a g file s) <> Ok true.
Proof.
  intros Hnone.
  assert (Hfilter : forall file s', fst (passes_filters a g file s') <> Ok true).
  { intros file s'. unfold passes_filters.
    rewrite (bind_ok _ _ _ _ _ (is_dir_spec file s')).
    destruct (bool_decide _); [discriminate|].
    destruct (negb _); [discriminate|].
    destruct (negb _); [discriminate|].
    rewrite Hnone. discriminate. }
  split; [|intros file; apply Hfilter].
  revert s. induction files as [|file files IH]; intros s; [reflexivity|].
  simpl.
  assert (Hsame : snd (copy_and_rename_file w a g file s) = s).
  { unfold copy_and_rename_file, mbind, M_bind.
    pose proof (passes_filters_state a g file s) as Hst.
    pose proof (Hfilter file s) as Hne.
    destruct (passes_filters a g file s) as [[[|]|e] s']; simpl in *;
      try exact Hst; contradiction. }
  rewrite Hsame. apply IH.
Qed.

Lemma without_exclude_nothing_is_copied_witness :
  executor_map
    (copy_and_rename_file without_metadata (default_args ["in"] ["out"]) globals_out)
    [["in"; "scan.jpg"]] {| fs := tree_scan_ready; trace := [] |}
  = (Ok tt, {| fs := tree_scan_ready; trace := [] |}).
Proof.
  apply (without_exclude_nothing_is_copied without_metadata
           (default_args ["in"] ["out"]) globals_out [["in"; "scan.jpg"]]
           {| fs := tree_scan_ready; trace := [] |}).
  reflexivity.
Defined.

(** ** Placement: the three actions on the file tree *)

Lemma has_char_substring (c : ascii) (k : nat) (s : string) :
  has_char c s = false -> has_char c (substring 0 k s) = false.
Proof.
  revert k. induction s as [|x s IH]; intros [|k] H; simpl in *; try reflexivity.
  apply orb_false_iff in H as [Hx Hs]. now rewrite Hx, IH.
Qed.

(** The first four characters of a component are a component. *)
Lemma take_component (n : string) :
  is_component n = true -> is_component (take 4 n) = true.
Proof.
  unfold is_component, take. rewrite !andb_true_iff, !negb_true_iff.
  intros [[He Hd] Hs]. split; [split|].
  - destruct n as [|x n]; [discriminate | reflexivity].
  - destruct n as [|x [|y n]]; [discriminate | exact Hd |].
    simpl. destruct (Ascii.eqb x "."); reflexivity.
  - now apply has_char_substring.
Qed.





Lemma has_char_app (c : ascii) (s t : string) :
  has_char c (s +:+ t) = has_char c s || has_char c t.
Proof.
  induction s as [|x s IH]; [reflexivity|].
  change (has_char c (String x (s +:+ t))
          = has_char c (String x s) || has_char c t).
  simpl. now rewrite IH, orb_assoc.
Qed.

Lemma has_char_substring_any (c : ascii) (i k : nat) (s : string) :
  has_char c s = false -> has_char c (substring i k s) = false.
Proof.
  revert i k. induction s as [|x s IH]; intros [|i] [|k] H; simpl in *;
    try reflexivity; apply orb_false_iff in H as [Hx Hs].
  - now rewrite Hx, IH.
  - now apply IH.
  - now apply IH.
Qed.

(** The [_collision] name of a component is a component. *)
Lemma collision_name_component (n : string) :
  is_component n = true -> is_component (collision_name n) = true.
Proof.
  unfold is_component. rewrite !andb_true_iff, !negb_true_iff.
  intros [_ Hs].
  assert (Hlen : (10 <= String.length (collision_name n))%nat).
  { unfold collision_name. rewrite string_length_app, string_length_app.
    simpl. lia. }
  split; [split|].
  - apply String.eqb_neq. intros E. rewrite E in Hlen. simpl in Hlen. lia.
  - apply String.eqb_neq. intros E. rewrite E in Hlen. simpl in Hlen. lia.
  - unfold collision_name, splitext.
    destruct (_ && _); cbn [fst snd]; rewrite !has_char_app.
    + unfold take, drop. rewrite !has_char_substring_any by exact Hs. reflexivity.
    + rewrite Hs. reflexivity.
Qed.

(** X14.  COPY_WITH_RENAME.  When the canonical destination of a processed file
    holds other bytes and the own name of the file is free in the bucket,
    the file is stored under the [_collision] name, replacing whatever
    regular file had that name, and the file at the canonical name is left
    as it was. *)
Theorem colliding_file_gets_marker (w : collaborators) (a : args) (g : globals)
    (file : Path) (s : state) (n c c1 : string) :
  passes_filters a g file s = (Ok true, s) ->
  get_new_name w file = Ok (Some n) ->
  is_component (name file) = true ->
  is_component n = true ->
  name file <> collision_name n ->
  fs s !! (out_dir g ++ [take 4 n]) = Some Dir ->
  fs s !! ((out_dir g ++ [take 4 n]) ++ [n]) = Some (File c1) ->
  fs s !! file = Some (File c) ->
  c <> c1 ->
  fs s !! ((out_dir g ++ [take 4 n]) ++ [name file]) = None ->
  fs s !! ((out_dir g ++ [take 4 n]) ++ [collision_name n]) <> Some Dir ->
  fs (snd (copy_and_rename_file w a g file s)) !! ((out_dir g ++ [take 4 n]) ++ [n])
  = Some (File c1)
  /\ fs (snd (copy_and_rename_file w a g file s))
       !! ((out_dir g ++ [take 4 n]) ++ [collision_name n]) = Some (File c).
Proof.
  intros Hpass Hnew Hname Hn Hdiff Hdir Hcanon Hfile Hc Hfree Hcoll.
  assert (Htd : out_dir g // take 4 n = out_dir g ++ [take 4 n])
    by (apply truediv_component, take_component, Hn).
  unfold copy_and_rename_file. rewrite (bind_ok _ _ _ _ _ Hpass).
  rewrite <- Htd in *.
  apply (collision_keeps_both w g file s n c c1); try assumption.
  - now apply collision_name_component.
  - intros E. rewrite <- E in Hfree. congruence.
Qed.

Lemma colliding_file_gets_marker_witness :
  fs (snd (copy_and_rename_file (with_metadata capture_2023) args_jpg globals_out
             ["in"; "holiday"; "IMG_0001.jpg"]
             {| fs := tree_edited_placed; trace := [] |}))
    !! ["out"; "2023"; "2023.04.15_15.30.00.jpg"] = Some (File "edited")
  /\ fs (snd (copy_and_rename_file (with_metadata capture_2023) args_jpg globals_out
                ["in"; "holiday"; "IMG_0001.jpg"]
                {| fs := tree_edited_placed; trace := [] |}))
       !! ["out"; "2023"; "2023.04.15_15.30.00_collision.jpg"] = Some (File "original").
Proof.
  apply (colliding_file_gets_marker (with_metadata capture_2023) args_jpg globals_out
           ["in"; "holiday"; "IMG_0001.jpg"]
           {| fs := tree_edited_placed; trace := [] |}
           "2023.04.15_15.30.00.jpg" "original" "edited").
  - vm_compute. reflexivity.
  - reflexivity.
  - reflexivity.
  - reflexivity.
  - vm_compute. discriminate.
  - reflexivity.
  - reflexivity.
  - reflexivity.
  - discriminate.
  - reflexivity.
  - vm_compute. discriminate.
Defined.



(** ** Quarantine: repetition and the flattened directory name *)

(** The filter chain looks at the file tree only to see whether the file is
    a directory. *)
Lemma passes_filters_same_entry (a : args) (g : globals) (file : Path)
    (s s1 : state) :
  fs s1 !! file = fs s !! file ->
  fst (passes_filters a g file s1) = fst (passes_filters a g file s).
Proof.
  intros H. unfold passes_filters.
  rewrite (bind_ok _ _ _ _ _ (is_dir_spec file s)),
          (bind_ok _ _ _ _ _ (is_dir_spec file s1)), H.
  destruct (bool_decide _); [reflexivity|].
  destruct (negb _); [reflexivity|].
  destruct (negb _); [reflexivity|].
  unfold mbind, M_bind, lift.
  destruct (arg_exclude a) as [excl|]; [|reflexivity].
  now destruct (existsb _ excl).
Qed.

(** X16.  Quarantining is idempotent on the file tree: a second task for the
    same unresolvable file copies it again, onto the copy the first task
    left, and the file tree after the second task is the file tree after
    the first. *)
Theorem quarantine_twice_same_tree (w : collaborators) (a : args) (g : globals)
    (file : Path) (s : state) (c : string) :
  passes_filters a g file s = (Ok true, s) ->
  get_date w file = Ok None ->
  is_component (name file) = true ->
  fs s !! file = Some (File c) ->
  fs s !! failed_dir g = Some Dir ->
  (fs s !! quarantine g file = None \/ fs s !! quarantine g file = Some Dir) ->
  fs s !! (quarantine g file ++ [name file]) <> Some Dir ->
  fs (snd (copy_and_rename_file w a g file
             (snd (copy_and_rename_file w a g file s))))
  = fs (snd (copy_and_rename_file w a g file s))
  /\ existsb is_copy
       (trace (snd (copy_and_rename_file w a g file
                      {| fs := fs (snd (copy_and_rename_file w a g file s));
                         trace := [] |}))) = true.
Proof.
  intros Hpass Hdate Hname Hfile Hfailed Hq Hdst.
  set (q := quarantine g file) in *.
  assert (Hne := quarantine_not_source g file). fold q in Hne.
  assert (Hfq : file <> q).
  { intros E. rewrite E in Hfile. destruct Hq; congruence. }
  assert (Hfirst : copy_and_rename_file w a g file s
                   = (Raise TypeError,
                      {| fs := <[q ++ [name file] := File c]> (<[q := Dir]> (fs s));
                         trace := trace s
                                  ++ match fs s !! q with
                                     | None => [EvMkdir q]
                                     | Some _ => []
                                     end
                                  ++ [EvCopy file (q ++ [name file])] |})).
  { unfold copy_and_rename_file. rewrite (bind_ok _ _ _ _ _ Hpass).
    apply (place_unresolved w g file s c Hdate Hname Hfile); [tauto | exact Hdst]. }
  rewrite Hfirst. cbn [snd].
  set (tree1 := <[q ++ [name file] := File c]> (<[q := Dir]> (fs s))).
  assert (Hfile1 : tree1 !! file = Some (File c))
    by (unfold tree1; now rewrite !lookup_insert_ne by congruence).
  assert (Hq1 : tree1 !! q = Some Dir).
  { unfold tree1. rewrite lookup_insert_ne by apply child_neq.
    apply lookup_insert_eq. }
  assert (Hdst1 : tree1 !! (q ++ [name file]) = Some (File c))
    by apply lookup_insert_eq.
  assert (Hagain : forall t,
            copy_and_rename_file w a g file {| fs := tree1; trace := t |}
            = (Raise TypeError,
               {| fs := tree1; trace := t ++ [EvCopy file (q ++ [name file])] |})).
  { intros t. unfold copy_and_rename_file.
    assert (Hpass1 : passes_filters a g file {| fs := tree1; trace := t |}
                     = (Ok true, {| fs := tree1; trace := t |})).
    { pose proof (passes_filters_state a g file {| fs := tree1; trace := t |}) as Hst.
      pose proof (passes_filters_same_entry a g file s {| fs := tree1; trace := t |})
        as Hres.
      rewrite Hpass in Hres. cbn [fs fst] in Hres.
      rewrite Hfile1, Hfile in Hres. specialize (Hres eq_refl).
      destruct (passes_filters a g file {| fs := tree1; trace := t |}) as [r s'].
      simpl in *. now subst. }
    rewrite (bind_ok _ _ _ _ _ Hpass1).
    rewrite (place_unresolved w g file {| fs := tree1; trace := t |} c Hdate Hname);
      cbn [fs trace]; fold q; [| exact Hfile1 | now right | congruence].
    rewrite Hq1, (insert_id tree1 q Dir Hq1).
    now rewrite (insert_id tree1 _ _ Hdst1). }
  split.
  - now rewrite Hagain.
  - rewrite Hagain. reflexivity.
Qed.

Lemma quarantine_twice_same_tree_witness :
  fs (snd (copy_and_rename_file without_metadata args_jpg globals_out
             ["in"; "scan.jpg"]
             (snd (copy_and_rename_file without_metadata args_jpg globals_out
                     ["in"; "scan.jpg"] {| fs := tree_scan_ready; trace := [] |}))))
  = fs (snd (copy_and_rename_file without_metadata args_jpg globals_out
               ["in"; "scan.jpg"] {| fs := tree_scan_ready; trace := [] |})).
Proof.
  apply (quarantine_twice_same_tree without_metadata args_jpg globals_out
           ["in"; "scan.jpg"] {| fs := tree_scan_ready; trace := [] |} "S").
  - vm_compute. reflexivity.
  - reflexivity.
  - reflexivity.
  - reflexivity.
  - reflexivity.
  - left. reflexivity.
  - vm_compute. discriminate.
Defined.

Lemma replace_app (x y : ascii) (s t : string) :
  replace x y (s +:+ t) = replace x y s +:+ replace x y t.
Proof.
  unfold replace. induction s as [|c s IH]; [reflexivity|].
  change (str_map (fun c0 => if Ascii.eqb c0 x then y else c0) (String c (s +:+ t))
          = String (if Ascii.eqb c x then y else c)
              (str_map (fun c0 => if Ascii.eqb c0 x then y else c0) s
               +:+ str_map (fun c0 => if Ascii.eqb c0 x then y else c0) t)).
  simpl. now rewrite IH.
Qed.

Lemma concat_cons (sep y : string) (l : list string) :
  l <> [] -> String.concat sep (y :: l) = y +:+ sep +:+ String.concat sep l.
Proof. destruct l; [contradiction | reflexivity]. Qed.

Lemma flatten_merges (p : list string) (a b : string) :
  replace "/" "_" (String.concat "/" (p ++ [a; b]))
  = replace "/" "_" (String.concat "/" (p ++ [a +:+ "_" +:+ b])).
Proof.
  induction p as [|y p IH].
  - cbn [app]. rewrite (concat_cons "/" a [b]) by discriminate.
    cbn [String.concat]. now rewrite !replace_app.
  - cbn [app]. rewrite !concat_cons by (now destruct p).
    rewrite !replace_app. now rewrite IH.
Qed.

(** X17.  The flattened directory name does not tell a separator from an
    underscore: the files of a directory [b] inside [a] and those of a
    sibling directory named [a_b] share one quarantine subdirectory, where
    files of the same name overwrite each other. *)
Theorem quarantine_merges_directories (g : globals) (p : Path) (a b x : string) :
  quarantine g (p ++ [a; b; x]) = quarantine g (p ++ [a +:+ "_" +:+ b; x]).
Proof.
  unfold quarantine, str_path. f_equal. f_equal.
  replace (p ++ [a; b; x]) with ((p ++ [a; b]) ++ [x])
    by (now rewrite <- app_assoc).
  replace (p ++ [a +:+ "_" +:+ b; x]) with ((p ++ [a +:+ "_" +:+ b]) ++ [x])
    by (now rewrite <- app_assoc).
  rewrite !parent_child, !(replace_app "/" "_" "/").
  now rewrite flatten_merges.
Qed.
